(** * addon-blueprint: the blueprint's [index.js], embedded and verified

    The blueprint is glue code over a dynamically typed options object, a
    file system and two external commands.  The embedding keeps that shape:

    - JavaScript values are a small inductive type with the language's
      truthiness, so that [a || b] and [a && b] mean what they mean in the
      source;
    - objects are association lists in insertion order (what
      [Object.entries] enumerates), read with [obj_get] and written with
      [obj_set];
    - code that can throw returns a [result];
    - code with effects runs in a state-and-error monad over a [world]
      holding the files, a trace of the calls made to the outside, and the
      faults the environment injects.

    Functions of other packages ([dasherize], [classify], [path.join],
    [JSON.stringify], [sortPackageJson], ...) are Section variables. *)

From Stdlib Require Import String Ascii List ZArith Bool Lia DecimalString.
Import ListNotations.
Open Scope string_scope.

Set Implicit Arguments.
Set Warnings "-register-all".

(** ** JavaScript values *)

Inductive value : Type :=
| VUndefined
| VNull
| VBool (b : bool)
| VNum (n : Z)
| VStr (s : string)
| VObj (fields : list (string * value)).

(** [Boolean(v)]: the falsy values are [undefined], [null], [false], [0]
    and the empty string. *)
Definition truthy (v : value) : bool :=
  match v with
  | VUndefined | VNull => false
  | VBool b => b
  | VNum n => negb (Z.eqb n 0)
  | VStr s => negb (String.eqb s "")
  | VObj _ => true
  end.

(** [a || b] and [a && b] on values. *)
Definition js_or (a b : value) : value := if truthy a then a else b.
Definition js_and (a b : value) : value := if truthy a then b else a.

(** The string a template literal substitutes for [${v}]. *)
Definition to_template_string (v : value) : string :=
  match v with
  | VUndefined => "undefined"
  | VNull => "null"
  | VBool true => "true"
  | VBool false => "false"
  | VNum n => NilZero.string_of_int (Z.to_int n)
  | VStr s => s
  | VObj _ => "[object Object]"
  end.

(** ** Objects as association lists *)

Section Objects.
Variable V : Type.

Definition object := list (string * V).

Fixpoint obj_get (k : string) (o : object) : option V :=
  match o with
  | [] => None
  | (k', v) :: rest => if String.eqb k k' then Some v else obj_get k rest
  end.

(** [o[k] = v]: an existing key keeps its place, a new key goes last. *)
Fixpoint obj_set (k : string) (v : V) (o : object) : object :=
  match o with
  | [] => [(k, v)]
  | (k', v') :: rest =>
      if String.eqb k k' then (k', v) :: rest
      else (k', v') :: obj_set k v rest
  end.

Definition obj_keys (o : object) : list string := map fst o.

Definition has_key (k : string) (o : object) : bool :=
  match obj_get k o with Some _ => true | None => false end.
End Objects.

(** Property read [o.k]: a missing property reads as [undefined]. *)
Definition prop (k : string) (o : object value) : value :=
  match obj_get k o with
  | Some v => v
  | None => VUndefined
  end.

(** ** Errors *)

Inductive error : Type :=
| SilentError (message : string)
| TypeError
| EnvError (code : string).

Inductive result (A : Type) : Type :=
| Ok (a : A)
| Err (e : error).
Arguments Ok {A} a.
Arguments Err {A} e.

Definition rbind {A B} (r : result A) (f : A -> result B) : result B :=
  match r with
  | Ok a => f a
  | Err e => Err e
  end.

(** ** The records derived from the options *)

Record AddonName := {
  an_dashed : string;
  an_classified : string;
  an_raw : string
}.

Record AddonInfo := {
  ai_name : AddonName;
  ai_entity : value;
  ai_location : value
}.

Record TestAppName := {
  tn_dashed : string;
  tn_raw : string
}.

Record TestAppInfo := {
  ti_name : TestAppName;
  ti_location : value
}.

Definition ADDON_OPTIONS : list string :=
  ["addonLocation"; "testAppLocation"; "testAppName"; "releaseIt"].

Definition includes (l : list string) (k : string) : bool :=
  existsb (String.eqb k) l.

(** [withoutAddonOptions]: the loop over [Object.entries(options)], which
    assigns every entry whose key is not an addon option to [result]. *)
Definition withoutAddonOptions (options : object value) : object value :=
  fold_left
    (fun result entry =>
       let '(key, v) := entry in
       if includes ADDON_OPTIONS key then result else obj_set key v result)
    options [].

(** Member access [v.k]: throws on [undefined] and [null], reads
    [undefined] from a primitive. *)
Definition member (k : string) (v : value) : result value :=
  match v with
  | VUndefined | VNull => Err TypeError
  | VObj fields => Ok (prop k fields)
  | _ => Ok VUndefined
  end.

(** The string functions of ember-cli-string-utils call [str.replace], so
    they throw on anything but a string.  ([dasherize] looks its argument
    up in a cache first: in a process that has already dasherized the
    string form of a value that is not a string, it returns the cached
    result for that value.  The derivers below are those of a process in
    which this has not happened; the properties that speak of a TypeError
    for a name are stated for the entity name, which [classify] rejects
    in any case, and otherwise assume names that are strings or falsy.) *)
Definition on_string (f : string -> string) (v : value) : result string :=
  match v with
  | VStr s => Ok (f s)
  | _ => Err TypeError
  end.

Fixpoint join (sep : string) (l : list string) : string :=
  match l with
  | [] => ""
  | [x] => x
  | x :: rest => x ++ sep ++ join sep rest
  end.

(** [Array.prototype.join] turns [null] and [undefined] into the empty
    string and every other element into its string. *)
Definition element_string (v : value) : string :=
  match v with
  | VUndefined | VNull => ""
  | _ => to_template_string v
  end.

(** Number of pieces [s.split('/')] yields: one more than the slashes. *)
Fixpoint split_slash_count (s : string) : nat :=
  match s with
  | EmptyString => 1
  | String c rest =>
      if Ascii.eqb c "/"%char then S (split_slash_count rest)
      else split_slash_count rest
  end.

Section OptionDeriver.
(** [stringUtil.dasherize] and [stringUtil.classify]. *)
Variables dasherize classify : string -> string.

(** Past [dasherize] and [classify] the raw name is known to be a string;
    the last [on_string] only recovers it. *)
Definition addonInfoFromOptions (options : object value) : result AddonInfo :=
  let addonEntity := prop "entity" options in
  rbind (member "name" addonEntity) (fun addonRawName =>
  rbind (on_string dasherize addonRawName) (fun dashedName =>
  rbind (on_string classify addonRawName) (fun classified =>
  rbind (on_string (fun s => s) addonRawName) (fun raw =>
  Ok {| ai_name := {| an_dashed := dashedName;
                      an_classified := classified;
                      an_raw := raw |};
        ai_entity := addonEntity;
        ai_location := js_or (prop "addonLocation" options) (VStr dashedName) |})))).

Definition testAppInfoFromOptions (options : object value) : result TestAppInfo :=
  let name := js_or (prop "testAppName" options) (VStr "test-app") in
  rbind (on_string dasherize name) (fun dashedName =>
  rbind (on_string (fun s => s) name) (fun raw =>
  Ok {| ti_name := {| tn_dashed := dashedName; tn_raw := raw |};
        ti_location := js_or (prop "testAppLocation" options) (VStr dashedName) |})).
End OptionDeriver.

(** ** Template locals *)

Record Locals := {
  l_addonInfo : AddonInfo;
  l_testAppInfo : TestAppInfo;
  l_addonName : string;
  l_addonNamespace : string;
  l_blueprintVersion : value;
  l_year : Z;
  l_yarn : value;
  l_vitest : value;
  l_welcome : value;
  l_blueprint : string;
  l_blueprintOptions : string;
  l_ciProvider : value;
  l_pathFromAddonToRoot : string
}.

Definition LF : string := String (ascii_of_nat 10) EmptyString.
Definition DQ : string := String (ascii_of_nat 34) EmptyString.

Definition indent : string := LF ++ "            ".
Definition outdent : string := LF ++ "          ".
Definition separator : string := "," ++ LF ++ "            ".

(** A flag without a value, quoted: ["--welcome"]. *)
Definition quoted (flag : string) : value := VStr (DQ ++ flag ++ DQ).

(** A flag with a value, quoted: ["--ci-provider=${v}"]. *)
Definition quoted_eq (flag : string) (v : value) : value :=
  VStr (DQ ++ flag ++ "=" ++ to_template_string v ++ DQ).

(** The array literal of [locals], before [.filter(Boolean)]. *)
Definition flag_entries (options : object value) : list value :=
  [ js_and (prop "welcome" options) (quoted "--welcome");
    js_and (prop "yarn" options) (quoted "--yarn");
    js_and (prop "vitest" options) (quoted "--vitest");
    js_and (prop "ciProvider" options)
           (quoted_eq "--ci-provider" (prop "ciProvider" options));
    js_and (prop "addonLocation" options)
           (quoted_eq "--addon-location" (prop "addonLocation" options));
    js_and (prop "testAppLocation" options)
           (quoted_eq "--test-app-location" (prop "testAppLocation" options));
    js_and (prop "testAppName" options)
           (quoted_eq "--test-app-name" (prop "testAppName" options));
    js_and (prop "releaseIt" options) (quoted "--release-it") ].

Definition hasOptions (options : object value) : value :=
  js_or (js_or (prop "welcome" options) (prop "yarn" options))
        (prop "ciProvider" options).

Definition blueprintOptions (options : object value) : string :=
  if truthy (hasOptions options) then
    indent
    ++ join separator (map element_string (filter truthy (flag_entries options)))
    ++ outdent
  else "".

(** [location.split('/').map(() => '..').join('/')]; [split] exists on
    strings only. *)
Definition pathFromAddonToRoot (location : value) : result string :=
  match location with
  | VStr s => Ok (join "/" (repeat ".." (split_slash_count s)))
  | _ => Err TypeError
  end.

Section TemplateLocals.
Variables dasherize classify : string -> string.
(** [require('./package.json').version] and [date.getFullYear()]. *)
Variable blueprintVersion : value.
Variable year : Z.

Definition locals (options : object value) : result Locals :=
  rbind (addonInfoFromOptions dasherize classify options) (fun addonInfo =>
  rbind (testAppInfoFromOptions dasherize options) (fun testAppInfo =>
  rbind (pathFromAddonToRoot (ai_location addonInfo)) (fun toRoot =>
  Ok {| l_addonInfo := addonInfo;
        l_testAppInfo := testAppInfo;
        l_addonName := an_dashed (ai_name addonInfo);
        l_addonNamespace := an_classified (ai_name addonInfo);
        l_blueprintVersion := blueprintVersion;
        l_year := year;
        l_yarn := prop "yarn" options;
        l_vitest := prop "vitest" options;
        l_welcome := prop "welcome" options;
        l_blueprint := "addon";
        l_blueprintOptions := blueprintOptions options;
        l_ciProvider := prop "ciProvider" options;
        l_pathFromAddonToRoot := toRoot |}))).

(** [fileMapTokens]: the two closures, applied. *)
Definition fileMapTokens (l : Locals) : object value :=
  [ ("__addonLocation__", ai_location (l_addonInfo l));
    ("__testAppLocation__", ti_location (l_testAppInfo l)) ].
End TemplateLocals.

(** ** The outside world *)

(** Calls the blueprint makes to the outside, as they appear in the
    trace. *)
Inductive call : Type :=
| Install (appOptions : object value)
| Require (path : string)
| WriteFile (path content : string)
| Copy (src dest : string) (overwrite : bool)
| Remove (path : string)
| Unlink (path : string)
| Execa (file : string) (args : list string) (options : object value).

Definition filesystem := string -> option string.

(** [trace] lists the calls made, oldest first.  The rest is the
    environment's choice: [faults], the calls that fail; [external], what
    the nested generator and the external commands do to the files, and
    what a call that fails has done to them by the time it fails;
    [settles], which of the rejections of a [Promise.all] comes first in
    time, given how many there are besides the first.

    Files are keyed by the path as the program writes it: two spellings
    of one file (one relative to the working directory, one absolute) are
    two keys. *)
Record world := {
  files : filesystem;
  trace : list call;
  faults : call -> option string;
  external : call -> filesystem -> filesystem;
  settles : nat -> nat
}.

Definition M (A : Type) : Type := world -> result A * world.

Definition ret {A} (a : A) : M A := fun w => (Ok a, w).

Definition throw {A} (e : error) : M A := fun w => (Err e, w).

Definition bind {A B} (m : M A) (f : A -> M B) : M B :=
  fun w =>
    match m w with
    | (Ok a, w') => f a w'
    | (Err e, w') => (Err e, w')
    end.

Definition lift {A} (r : result A) : M A := fun w => (r, w).

Declare Scope blueprint_scope.
Delimit Scope blueprint_scope with blueprint.
Notation "x <- m ;; k" := (bind m (fun x => k))
  (at level 61, m at next level, right associativity) : blueprint_scope.
Notation "m ;;; k" := (bind m (fun _ => k))
  (at level 61, right associativity) : blueprint_scope.
Open Scope blueprint_scope.

Definition with_files (f : filesystem) (w : world) : world :=
  {| files := f; trace := trace w; faults := faults w;
     external := external w; settles := settles w |}.

Definition logged (c : call) (w : world) : world :=
  {| files := files w; trace := trace w ++ [c];
     faults := faults w; external := external w; settles := settles w |}.

(** One call to the outside: it is logged; if the environment lets it
    succeed it changes the files by [effect]; if it fails it may have
    done part of its work, and what it leaves behind is the
    environment's.  A call has its effect on the files when it is made:
    of the ways the file operations of concurrent tasks can interleave,
    the model takes the one in which each operation is over before the
    next call is made. *)
Definition perform (c : call) (effect : filesystem -> filesystem) : M unit :=
  fun w =>
    let w1 := logged c w in
    match faults w c with
    | Some code => (Err (EnvError code), with_files (external w c (files w)) w1)
    | None => (Ok tt, with_files (effect (files w)) w1)
    end.

(** *** Paths and the file operations of fs-extra *)

Fixpoint strip_prefix (pre s : string) : option string :=
  match pre, s with
  | EmptyString, _ => Some s
  | String a pre', String b s' =>
      if Ascii.eqb a b then strip_prefix pre' s' else None
  | String _ _, EmptyString => None
  end.

(** [under dir p] is the rest of [p] below [dir]: empty when [p] is [dir]
    itself, ["/..."] when [p] lies inside it. *)
Definition under (dir p : string) : option string :=
  match strip_prefix dir p with
  | Some EmptyString => Some EmptyString
  | Some (String c rest) =>
      if Ascii.eqb c "/"%char then Some (String c rest) else None
  | None => None
  end.

(** [fs.copy(src, dest, { overwrite: true })]: every file of [src] lands
    at the same relative path of [dest]; nothing else changes. *)
Definition copy_files (src dest : string) (f : filesystem) : filesystem :=
  fun p =>
    match under dest p with
    | Some rel =>
        match f (src ++ rel) with
        | Some content => Some content
        | None => f p
        end
    | None => f p
    end.

(** [fs.remove(dir)]: [dir] and everything below it is gone. *)
Definition remove_files (dir : string) (f : filesystem) : filesystem :=
  fun p =>
    match under dir p with
    | Some _ => None
    | None => f p
    end.

Definition write_file (path content : string) (f : filesystem) : filesystem :=
  fun p => if String.eqb p path then Some content else f p.

Definition unlink_file (path : string) (f : filesystem) : filesystem :=
  fun p => if String.eqb p path then None else f p.

Definition fs_copy (src dest : string) : M unit :=
  perform (Copy src dest true) (copy_files src dest).

Definition fs_remove (path : string) : M unit :=
  perform (Remove path) (remove_files path).

Definition fs_writeFile (path content : string) : M unit :=
  perform (WriteFile path content) (write_file path content).

(** [fs.unlink] of a file that is not there fails with ENOENT. *)
Definition fs_unlink (path : string) : M unit :=
  fun w =>
    match files w path with
    | None => (Err (EnvError "ENOENT"), logged (Unlink path) w)
    | Some _ => perform (Unlink path) (unlink_file path) w
    end.

Definition execa (file : string) (args : list string) (options : object value)
  : M unit :=
  fun w => perform (Execa file args options)
                   (external w (Execa file args options)) w.

(** ** Override File Relocator *)

Definition overrideTestAppFiles (testAppPath overridesPath : string) : M unit :=
  fs_copy overridesPath testAppPath ;;;
  fs_remove overridesPath.

(** ** Release tooling *)

Section ReleaseIt.
(** [__dirname] of the blueprint. *)
Variable dirname : string.

Definition setupReleaseIt (rootPath : string) : M unit :=
  execa "create-rwjblue-release-it-setup" ["--no-install"]
        [ ("cwd", VStr rootPath);
          ("preferLocal", VBool true);
          ("localDir", VStr dirname) ].
End ReleaseIt.

(** ** Package Manifest Patcher *)

(** JSON as [require] of a [.json] file yields it.  A number keeps its
    literal: the blueprint never computes with one. *)
Inductive json : Type :=
| JNull
| JBool (b : bool)
| JNum (literal : string)
| JStr (s : string)
| JArr (elements : list json)
| JObj (members : list (string * json)).

(** lodash's [merge], on JSON: the value left under a key after merging
    the source value [src] onto the destination value [objValue] ([None]
    when the destination has no such key).  Plain objects merge key by
    key, arrays index by index, anything else in the source overwrites.
    A destination that is not of the source's kind is replaced by an
    empty one first, except that an array meeting a source object stays
    as it is: lodash hangs the source's keys on the array object, where
    [JSON.stringify] does not see them. *)
Fixpoint merge_value (src : json) (objValue : option json) {struct src} : json :=
  match src with
  | JObj sf =>
      let merge_members :=
        fix go (sf : list (string * json)) (dest : object json) : object json :=
          match sf with
          | [] => dest
          | (k, v) :: rest =>
              go rest (obj_set k (merge_value v (obj_get k dest)) dest)
          end in
      match objValue with
      | Some (JObj df) => JObj (merge_members sf df)
      | Some (JArr da) => JArr da
      | _ => JObj (merge_members sf [])
      end
  | JArr sa =>
      let merge_elements :=
        fix go (sa dest : list json) : list json :=
          match sa, dest with
          | [], _ => dest
          | s :: ss, [] => merge_value s None :: go ss []
          | s :: ss, d :: ds => merge_value s (Some d) :: go ss ds
          end in
      match objValue with
      | Some (JArr da) => JArr (merge_elements sa da)
      | _ => JArr (merge_elements sa [])
      end
  | _ => src
  end.

(** [merge(object, source)] on two plain objects; [object] is updated key
    by key in the order of [source]'s keys. *)
Fixpoint merge (object0 source : object json) : object json :=
  match source with
  | [] => object0
  | (k, v) :: rest =>
      merge (obj_set k (merge_value v (obj_get k object0)) object0) rest
  end.

Fixpoint merge_elements (sa dest : list json) : list json :=
  match sa, dest with
  | [], _ => dest
  | s :: ss, [] => merge_value s None :: merge_elements ss []
  | s :: ss, d :: ds => merge_value s (Some d) :: merge_elements ss ds
  end.

(** [pkg.devDependencies[name] = version] in strict mode: throws when
    [devDependencies] is missing, [null] or a primitive; on an array it
    sets a property that is not serialized. *)
Definition set_dev_dependency (name version : string) (pkg : object json)
  : result (object json) :=
  match obj_get "devDependencies" pkg with
  | Some (JObj deps) =>
      Ok (obj_set "devDependencies" (JObj (obj_set name (JStr version) deps)) pkg)
  | Some (JArr _) => Ok pkg
  | _ => Err TypeError
  end.

(** The blueprint instance: what [this] provides. *)
Record blueprint := {
  this_options : object value;
  this_app_blueprint : bool;
  this_isEmberCLIProject : bool;
  this_isEmberCLIAddon : bool
}.

Section Blueprint.
Variables dasherize classify : string -> string.
Variable blueprintVersion : value.
Variable year : Z.
(** [path.join] of two strings. *)
Variable path_join : string -> string -> string.
Variable dirname : string.
(** The bundled [additional-test-app-package.json]. *)
Variable additions : object json.
(** Parsing of a manifest file, [sortPackageJson] and
    [JSON.stringify(_, undefined, 2)]. *)
Variable parse_manifest : string -> option (object json).
Variable sortPackageJson : json -> json.
Variable stringify : json -> string.
(** [normalizeEntityName] of ember-cli-normalize-entity-name. *)
Variable normalize : value -> result value.

Variable this : blueprint.

(** [path.join(a, b)] throws unless both arguments are strings. *)
Definition join_paths (a b : value) : result string :=
  match a, b with
  | VStr x, VStr y => Ok (path_join x y)
  | _, _ => Err TypeError
  end.

(** [require(packageJsonPath)] of a manifest. *)
Definition require_manifest (path : string) : M (object json) :=
  fun w =>
    let w1 := logged (Require path) w in
    match faults w (Require path) with
    | Some code => (Err (EnvError code), w1)
    | None =>
        match files w path with
        | None => (Err (EnvError "MODULE_NOT_FOUND"), w1)
        | Some text =>
            match parse_manifest text with
            | None => (Err (EnvError "SyntaxError"), w1)
            | Some pkg => (Ok pkg, w1)
            end
        end
    end.

Definition updateTestAppPackageJson (packageJsonPath : string) : M unit :=
  pkg <- require_manifest packageJsonPath ;;
  let merged := merge pkg additions in
  l <- lift (locals dasherize classify blueprintVersion year (this_options this)) ;;
  pkg' <- lift (set_dev_dependency (l_addonName l) "^0.0.0" merged) ;;
  fs_writeFile packageJsonPath (stringify (sortPackageJson (JObj pkg'))).

(** ** Installer Orchestrator *)

(** [appBlueprint.install(appOptions)]. *)
Definition app_install (appOptions : object value) : M unit :=
  fun w => perform (Install appOptions) (external w (Install appOptions)) w.

(** Object literal entries written after a spread, in order. *)
Definition assign (o : object value) (entries : list (string * value))
  : object value :=
  fold_left (fun acc entry => obj_set (fst entry) (snd entry) acc) entries o.

Definition appOptionsFor (options : object value) (testAppPath raw : string)
  : object value :=
  assign (withoutAddonOptions options)
    [ ("target", VStr testAppPath);
      ("skipNpm", VBool true);
      ("skipGit", VBool true);
      ("entity", VObj [("name", VStr raw)]);
      ("name", VStr raw);
      ("rawName", VStr raw);
      ("ciProvider", VStr "travis");
      ("welcome", VBool false) ].

(** An async function as [afterInstall] calls it without awaiting it:
    [start] is what runs at the call, up to and including the first
    awaited call; [resume] is what runs once that awaited call has
    resolved, which is after [afterInstall] has started every task and
    awaits them. *)
Record task := {
  start : M unit;
  resume : M unit
}.

(** A task with nothing after its first awaited call. *)
Definition once (m : M unit) : task := {| start := m; resume := ret tt |}.

(** [overrideTestAppFiles] as a task: the copy is called at once, the
    removal when the copy has resolved. *)
Definition overrideTestAppFiles_task (testAppPath overridesPath : string) : task :=
  {| start := fs_copy overridesPath testAppPath;
     resume := fs_remove overridesPath |}.

(** Every task of the array is started when the array literal is
    evaluated, whether or not an earlier one fails. *)
Fixpoint start_all (tasks : list task) (w : world)
  : list (result unit * M unit) * world :=
  match tasks with
  | [] => ([], w)
  | t :: rest =>
      let (r, w1) := start t w in
      let (started, w2) := start_all rest w1 in
      ((r, resume t) :: started, w2)
  end.

(** While [afterInstall] awaits, a task whose first call resolved runs
    on; one whose first call failed is rejected and runs no further. *)
Fixpoint resume_all (started : list (result unit * M unit)) (w : world)
  : list (result unit) * world :=
  match started with
  | [] => ([], w)
  | (Ok _, k) :: rest =>
      let (r, w1) := k w in
      let (rs, w2) := resume_all rest w1 in
      (r :: rs, w2)
  | (Err e, _) :: rest =>
      let (rs, w2) := resume_all rest w in
      (Err e :: rs, w2)
  end.

Fixpoint rejections (rs : list (result unit)) : list error :=
  match rs with
  | [] => []
  | Ok _ :: rest => rejections rest
  | Err e :: rest => e :: rejections rest
  end.

(** [Promise.all] resolves when every task did and otherwise rejects
    with the rejection that came first in time, which is one of the
    rejections, picked by the environment. *)
Definition first_rejection (w : world) (rs : list (result unit)) : result unit :=
  match rejections rs with
  | [] => Ok tt
  | e :: rest => Err (nth (settles w (length rest)) (e :: rest) e)
  end.

(** [await Promise.all(tasks)]. *)
Definition promise_all (tasks : list task) : M unit :=
  fun w =>
    let (started, w1) := start_all tasks w in
    let (rs, w2) := resume_all started w1 in
    (first_rejection w2 rs, w2).

Definition vitest_args : list string :=
  ["new"; "tests"; "-b"; "vitest-blueprint"; "--skip-git"; "--skip-npm"].

Definition install_tasks (options : object value)
           (target location testAppPath : string) : list task :=
  [ once (updateTestAppPackageJson (path_join testAppPath "package.json"));
    overrideTestAppFiles_task location (path_join target "test-app-overrides");
    once (fs_unlink (path_join testAppPath ".travis.yml")) ]
  ++ (if truthy (prop "vitest" options)
      then [once (execa "ember" vitest_args [("cwd", VStr target)])]
      else [])
  ++ (if truthy (prop "releaseIt" options)
      then [once (setupReleaseIt dirname target)]
      else []).

Definition afterInstall (options : object value) : M unit :=
  if negb (this_app_blueprint this) then
    throw (SilentError "Cannot find app blueprint for generating test-app!")
  else
    testAppInfo <- lift (testAppInfoFromOptions dasherize options) ;;
    match prop "target" options, ti_location testAppInfo with
    | VStr target, VStr location =>
        let testAppPath := path_join target location in
        app_install
          (appOptionsFor options testAppPath (tn_raw (ti_name testAppInfo))) ;;;
        promise_all (install_tasks options target location testAppPath)
    | _, _ => throw TypeError
    end.

(** ** Name Normalizer *)

Definition normalizeEntityName (entityName : value) : M value :=
  entityName' <- lift (normalize entityName) ;;
  if this_isEmberCLIProject this && negb (this_isEmberCLIAddon this) then
    throw (SilentError
             "Generating an addon in an existing ember-cli project is not supported.")
  else ret entityName'.
End Blueprint.

(** ** The flag fragment, in the words of the specification *)

Definition flag_if (v : value) (text : string) : list string :=
  if truthy v then [text] else [].

(** The flags of welcome, the package manager and the CI provider. *)
Definition spec_gate_flags (options : object value) : list string :=
  (flag_if (prop "welcome" options) (DQ ++ "--welcome" ++ DQ)
   ++ flag_if (prop "yarn" options) (DQ ++ "--yarn" ++ DQ)
   ++ flag_if (prop "ciProvider" options)
        (DQ ++ "--ci-provider="
            ++ to_template_string (prop "ciProvider" options) ++ DQ))%list.

(** The flags of every option the array literal of [locals] lists. *)
Definition spec_supplied_flags (options : object value) : list string :=
  (flag_if (prop "welcome" options) (DQ ++ "--welcome" ++ DQ)
   ++ flag_if (prop "yarn" options) (DQ ++ "--yarn" ++ DQ)
   ++ flag_if (prop "vitest" options) (DQ ++ "--vitest" ++ DQ)
   ++ flag_if (prop "ciProvider" options)
        (DQ ++ "--ci-provider="
            ++ to_template_string (prop "ciProvider" options) ++ DQ)
   ++ flag_if (prop "addonLocation" options)
        (DQ ++ "--addon-location="
            ++ to_template_string (prop "addonLocation" options) ++ DQ)
   ++ flag_if (prop "testAppLocation" options)
        (DQ ++ "--test-app-location="
            ++ to_template_string (prop "testAppLocation" options) ++ DQ)
   ++ flag_if (prop "testAppName" options)
        (DQ ++ "--test-app-name="
            ++ to_template_string (prop "testAppName" options) ++ DQ)
   ++ flag_if (prop "releaseIt" options) (DQ ++ "--release-it" ++ DQ))%list.

(** A JavaScript object has each key once. *)
Fixpoint unique_keys {V : Type} (o : object V) : bool :=
  match o with
  | [] => true
  | (k, _) :: rest => negb (has_key k rest) && unique_keys rest
  end.

(** The keys the object literal of [afterInstall] writes after the
    spread. *)
Definition APP_OVERRIDES : list string :=
  ["target"; "skipNpm"; "skipGit"; "entity"; "name"; "rawName";
   "ciProvider"; "welcome"].

Definition is_install (c : call) : bool :=
  match c with Install _ => true | _ => false end.

Definition is_execa (c : call) : bool :=
  match c with Execa _ _ _ => true | _ => false end.

(** [emits P m]: whatever [m] does, it only appends calls to the trace,
    and every call it appends satisfies [P]. *)
Definition emits {A : Type} (P : call -> Prop) (m : M A) : Prop :=
  forall w r w',
    m w = (r, w') ->
    exists new, trace w' = (trace w ++ new)%list /\ Forall P new.

(** ** The option record of the nested generator, in the words of the
    specification *)

(** What is said of the record: the addon options are gone, the listed
    keys have the listed values, and a key outside [overridden] has the
    value it has in [options]. *)
Definition app_options_spec (overridden : list string)
           (options : object value) (raw : string)
           (appOptions : object value) : Prop :=
  (forall k, In k ADDON_OPTIONS -> obj_get k appOptions = None)
  /\ prop "skipNpm" appOptions = VBool true
  /\ prop "skipGit" appOptions = VBool true
  /\ prop "entity" appOptions = VObj [("name", VStr raw)]
  /\ prop "name" appOptions = VStr raw
  /\ prop "rawName" appOptions = VStr raw
  /\ prop "welcome" appOptions = VBool false
  /\ prop "ciProvider" appOptions = VStr "travis"
  /\ (forall k, ~ In k ADDON_OPTIONS -> ~ In k overridden ->
                obj_get k appOptions = obj_get k options).

(** The keys the claim lists as overridden: all of [APP_OVERRIDES] but
    [target]. *)
Definition STATED_OVERRIDES : list string :=
  ["skipNpm"; "skipGit"; "entity"; "name"; "rawName"; "ciProvider"; "welcome"].

(** ** A small environment to run the blueprint in

    The names used are lower-case and dashed already, so the string
    functions leave them alone; paths are joined with a slash. *)
Module Demo.
Definition dasherize (s : string) : string := s.
Definition classify (s : string) : string := s.
Definition path_join (a b : string) : string := a ++ "/" ++ b.
Definition dirname : string := "/blueprint".

Definition additions : object json :=
  [ ("scripts", JObj [("test", JStr "ember test")]);
    ("devDependencies", JObj [("@embroider/test-setup", JStr "^1.0.0")]) ].

Definition manifest : object json :=
  [ ("name", JStr "test-app");
    ("devDependencies", JObj [("ember-source", JStr "~4.0.0")]) ].

Definition parse_manifest (text : string) : option (object json) :=
  if String.eqb text "test-app manifest" then Some manifest else None.

Definition sortPackageJson (j : json) : json := j.

(** Stands in for the serializer: the top-level keys, comma separated. *)
Definition stringify (j : json) : string :=
  match j with
  | JObj members => join "," (obj_keys members)
  | _ => ""
  end.

Definition options : object value :=
  [ ("entity", VObj [("name", VStr "my-addon")]);
    ("target", VStr "/tmp/x");
    ("releaseIt", VBool false);
    ("vitest", VBool false) ].

Definition this : blueprint :=
  {| this_options := options;
     this_app_blueprint := true;
     this_isEmberCLIProject := false;
     this_isEmberCLIAddon := false |}.

Definition generated : filesystem :=
  fun p =>
    if String.eqb p "/tmp/x/test-app/package.json" then Some "test-app manifest"
    else if String.eqb p "/tmp/x/test-app/.travis.yml" then Some "language: node_js"
    else if String.eqb p "test-app/app/app.js" then Some "generated app"
    else if String.eqb p "/tmp/x/test-app-overrides/ember-cli-build.js"
    then Some "override build"
    else None.

Definition start : world :=
  {| files := generated;
     trace := [];
     faults := fun _ => None;
     external := fun _ f => f;
     settles := fun _ => 0 |}.

(** The same, with a copy that fails. *)
Definition copy_fails : world :=
  {| files := generated;
     trace := [];
     faults := fun c => match c with Copy _ _ _ => Some "EACCES" | _ => None end;
     external := fun _ f => f;
     settles := fun _ => 0 |}.

(** Stands in for the normalizer: it rejects a missing name. *)
Definition normalize (entityName : value) : result value :=
  if truthy entityName then Ok entityName
  else Err (SilentError "an entity name is required").

Definition foreign_project : blueprint :=
  {| this_options := options;
     this_app_blueprint := true;
     this_isEmberCLIProject := true;
     this_isEmberCLIAddon := false |}.

Definition run (options : object value) (w : world) : result unit * world :=
  afterInstall dasherize classify VUndefined 2026 path_join dirname additions
               parse_manifest sortPackageJson stringify this options w.
End Demo.

(** A rest as [under] returns it: empty, or starting with a slash. *)
Definition is_rest (rel : string) : Prop :=
  rel = "" \/ exists r, rel = String "/"%char r.

(** JSON as a parser yields it: no object has a key twice, at any
    depth. *)
Fixpoint wf_json (j : json) : bool :=
  match j with
  | JArr elements => forallb wf_json elements
  | JObj members =>
      unique_keys members && forallb (fun kv => wf_json (snd kv)) members
  | _ => true
  end.

(** ** Further notions used by the properties *)

(** An entry [withoutAddonOptions] keeps. *)
Definition kept_entry (entry : string * value) : bool :=
  negb (includes ADDON_OPTIONS (fst entry)).

Definition is_string (v : value) : bool :=
  match v with VStr _ => true | _ => false end.

(** A value [a || default] turns into a string for a string default. *)
Definition falsy_or_string (v : value) : bool :=
  negb (truthy v) || is_string v.

(** The entity of the options is an object whose name is a string. *)
Definition entity_name_is_string (options : object value) : bool :=
  match prop "entity" options with
  | VObj entity => is_string (prop "name" entity)
  | _ => false
  end.

(** [starts_with c m]: however [m] goes, the first thing it does is the
    call [c]. *)
Definition starts_with {A : Type} (c : call) (m : M A) : Prop :=
  forall w r w',
    m w = (r, w') -> exists more, trace w' = (trace w ++ c :: more)%list.

(** The option sets on which [afterInstall] gets as far as the nested
    generator, for a blueprint instance [this]. *)
Definition reaches_install (this : blueprint) (options : object value) : bool :=
  this_app_blueprint this
  && falsy_or_string (prop "testAppName" options)
  && is_string (prop "target" options)
  && falsy_or_string (prop "testAppLocation" options).

(** The calls [afterInstall] may make, for the test-app [info] derived
    from the options, the target [target] and the test-app location
    [location]. *)
Definition in_footprint (path_join : string -> string -> string)
           (dirname : string) (options : object value) (info : TestAppInfo)
           (target location : string) (c : call) : Prop :=
  let testAppPath := path_join target location in
  c = Install (appOptionsFor options testAppPath (tn_raw (ti_name info)))
  \/ c = Require (path_join testAppPath "package.json")
  \/ (exists content, c = WriteFile (path_join testAppPath "package.json") content)
  \/ c = Copy (path_join target "test-app-overrides") location true
  \/ c = Remove (path_join target "test-app-overrides")
  \/ c = Unlink (path_join testAppPath ".travis.yml")
  \/ (truthy (prop "vitest" options) = true
      /\ c = Execa "ember" vitest_args [("cwd", VStr target)])
  \/ (truthy (prop "releaseIt" options) = true
      /\ c = Execa "create-rwjblue-release-it-setup" ["--no-install"]
               [("cwd", VStr target); ("preferLocal", VBool true);
                ("localDir", VStr dirname)]).

(** Steps run one after the other, each only if the one before it
    succeeded. *)
Fixpoint run_each (steps : list (M unit)) : M unit :=
  match steps with
  | [] => ret tt
  | m :: rest => m ;;; run_each rest
  end.

(** ** More of the small environment *)

(** The test-app derived from [Demo.options]. *)
Definition demo_test_app : TestAppInfo :=
  {| ti_name := {| tn_dashed := "test-app"; tn_raw := "test-app" |};
     ti_location := VStr "test-app" |}.

(** A world in which the nested generator fails. *)
Definition demo_install_fails : world :=
  {| files := Demo.generated;
     trace := [];
     faults := fun c => match c with Install _ => Some "EEXIST" | _ => None end;
     external := fun _ f => f;
     settles := fun _ => 0 |}.

(** A world in which the staging directory cannot be removed. *)
Definition demo_remove_fails : world :=
  {| files := Demo.generated;
     trace := [];
     faults := fun c => match c with Remove _ => Some "EBUSY" | _ => None end;
     external := fun _ f => f;
     settles := fun _ => 0 |}.

(** A manifest and a fragment without devDependencies. *)
Definition demo_bare_manifest (text : string) : option (object json) :=
  Some [("name", JStr "test-app")].

Definition demo_bare_additions : object json :=
  [("scripts", JObj [("test", JStr "ember test")])].



(** * Properties *)

(** ** Objects *)

Section ObjectFacts.
Variable V : Type.
Implicit Types (o : object V) (k : string) (v : V).

Lemma obj_get_set_eq k v o : obj_get k (obj_set k v o) = Some v.
Proof.
  induction o as [|[k' v'] rest IH]; simpl.
  - now rewrite String.eqb_refl.
  - destruct (String.eqb k k') eqn:E; simpl; rewrite E; auto.
Qed.

Lemma obj_get_set_ne k k' v o :
  k <> k' -> obj_get k (obj_set k' v o) = obj_get k o.
Proof.
  intros Hne. induction o as [|[k0 v0] rest IH]; simpl.
  - apply String.eqb_neq in Hne. now rewrite Hne.
  - destruct (String.eqb k' k0) eqn:E; simpl.
    + apply String.eqb_eq in E; subst k0.
      apply String.eqb_neq in Hne. now rewrite Hne.
    + now rewrite IH.
Qed.

Lemma obj_get_set k k' v o :
  obj_get k (obj_set k' v o) = if String.eqb k k' then Some v else obj_get k o.
Proof.
  destruct (String.eqb k k') eqn:E.
  - apply String.eqb_eq in E; subst. apply obj_get_set_eq.
  - apply String.eqb_neq in E. now apply obj_get_set_ne.
Qed.

(** Writing back the value a key already has changes nothing. *)
Lemma obj_set_same k v o : obj_get k o = Some v -> obj_set k v o = o.
Proof.
  induction o as [|[k' v'] rest IH]; simpl; [discriminate|].
  destruct (String.eqb k k') eqn:E; intros H.
  - now inversion H.
  - now rewrite IH.
Qed.

Lemma obj_get_In k o : obj_get k o <> None <-> In k (obj_keys o).
Proof.
  induction o as [|[k' v'] rest IH]; simpl; [tauto|].
  destruct (String.eqb k k') eqn:E.
  - apply String.eqb_eq in E; subst. split; auto. discriminate.
  - apply String.eqb_neq in E. rewrite IH. split; [tauto|].
    intros [H|H]; [congruence|assumption].
Qed.
End ObjectFacts.

Lemma prop_set k k' v o :
  prop k (obj_set k' v o) = if String.eqb k k' then v else prop k o.
Proof.
  unfold prop. rewrite obj_get_set. now destruct (String.eqb k k').
Qed.

(** ** Option Deriver *)

Section OptionDeriverFacts.
Variables dasherize classify : string -> string.

(** The derivers return whenever the names they dasherize are strings. *)
Lemma addonInfoFromOptions_returns options entity s :
  prop "entity" options = VObj entity ->
  prop "name" entity = VStr s ->
  addonInfoFromOptions dasherize classify options =
  Ok {| ai_name := {| an_dashed := dasherize s;
                      an_classified := classify s;
                      an_raw := s |};
        ai_entity := VObj entity;
        ai_location := js_or (prop "addonLocation" options)
                             (VStr (dasherize s)) |}.
Proof.
  intros He Hn. unfold addonInfoFromOptions. rewrite He. simpl.
  now rewrite Hn.
Qed.

Lemma addonInfoFromOptions_location options info :
  addonInfoFromOptions dasherize classify options = Ok info ->
  ai_location info =
  js_or (prop "addonLocation" options) (VStr (an_dashed (ai_name info)))
  /\ an_dashed (ai_name info) = dasherize (an_raw (ai_name info)).
Proof.
  unfold addonInfoFromOptions.
  destruct (member "name" (prop "entity" options)) as [n|]; simpl;
    [|discriminate].
  destruct n; simpl; try discriminate.
  intros H; inversion H; subst; simpl. auto.
Qed.

Lemma testAppInfoFromOptions_shape options info :
  testAppInfoFromOptions dasherize options = Ok info ->
  js_or (prop "testAppName" options) (VStr "test-app")
  = VStr (tn_raw (ti_name info))
  /\ tn_dashed (ti_name info) = dasherize (tn_raw (ti_name info))
  /\ ti_location info =
     js_or (prop "testAppLocation" options) (VStr (tn_dashed (ti_name info))).
Proof.
  unfold testAppInfoFromOptions.
  destruct (js_or (prop "testAppName" options) (VStr "test-app"));
    simpl; try discriminate.
  intros H; inversion H; subst; simpl. auto.
Qed.
End OptionDeriverFacts.

Lemma prop_absent k (o : object value) : has_key k o = false -> prop k o = VUndefined.
Proof. unfold has_key, prop. now destruct (obj_get k o). Qed.

Lemma js_or_falsy a b : truthy a = false -> js_or a b = b.
Proof. unfold js_or. now intros ->. Qed.

Lemma js_or_truthy a b : truthy a = true -> js_or a b = a.
Proof. unfold js_or. now intros ->. Qed.

(** C7 (amended).  When [addonInfoFromOptions] returns, the raw name is
    the entity's name; the location is the dasherized raw name when the
    options carry no [addonLocation], and is the supplied [addonLocation]
    itself when that value is truthy. *)
Theorem addon_location_default_or_truthy_override
  (dasherize classify : string -> string) (options : object value)
  (info : AddonInfo) :
  addonInfoFromOptions dasherize classify options = Ok info ->
  member "name" (prop "entity" options) = Ok (VStr (an_raw (ai_name info)))
  /\ (has_key "addonLocation" options = false ->
      ai_location info = VStr (dasherize (an_raw (ai_name info))))
  /\ (truthy (prop "addonLocation" options) = true ->
      ai_location info = prop "addonLocation" options).
Proof.
  intros H.
  destruct (addonInfoFromOptions_location _ _ _ H) as [Hloc Hd].
  repeat split.
  - unfold addonInfoFromOptions in H.
    destruct (member "name" (prop "entity" options)) as [n|]; simpl in H;
      [|discriminate].
    destruct n; simpl in H; try discriminate.
    now inversion H.
  - intros Habs. rewrite Hloc, Hd, (prop_absent _ _ Habs). reflexivity.
  - intros Ht. rewrite Hloc. now apply js_or_truthy.
Qed.

Lemma addon_location_default_or_truthy_override_witness :
  (exists a,
      addonInfoFromOptions (fun s => s) (fun s => s)
        [("entity", VObj [("name", VStr "my-addon")])] = Ok a
      /\ ai_location a = VStr (an_raw (ai_name a)))
  /\ (exists b,
      addonInfoFromOptions (fun s => s) (fun s => s)
        [("entity", VObj [("name", VStr "my-addon")]);
         ("addonLocation", VStr "packages/my-addon")] = Ok b
      /\ ai_location b = VStr "packages/my-addon").
Proof.
  split; eexists; (split; [reflexivity|]).
  - apply (@addon_location_default_or_truthy_override
             (fun s => s) (fun s => s)
             [("entity", VObj [("name", VStr "my-addon")])] _ eq_refl).
    reflexivity.
  - apply (@addon_location_default_or_truthy_override
             (fun s => s) (fun s => s)
             [("entity", VObj [("name", VStr "my-addon")]);
              ("addonLocation", VStr "packages/my-addon")] _ eq_refl).
    reflexivity.
Defined.

(** C7 as stated fails: an [addonLocation] that is supplied but falsy
    (here the empty string) is not the location. *)
Lemma addon_location_verbatim_fails_on_empty_string :
  ~ (forall (dasherize classify : string -> string) (options : object value)
            (info : AddonInfo),
        has_key "addonLocation" options = true ->
        addonInfoFromOptions dasherize classify options = Ok info ->
        ai_location info = prop "addonLocation" options).
Proof.
  intros H.
  specialize (H (fun s => s) (fun s => s)
                [("entity", VObj [("name", VStr "my-addon")]);
                 ("addonLocation", VStr "")]
                _ eq_refl eq_refl).
  discriminate H.
Qed.

(** C10.  A falsy [addonLocation], [testAppName] or [testAppLocation] is
    treated as if it were absent.  With a falsy addonLocation,
    [addonInfoFromOptions] returns the record whose location is the
    dasherized entity name.  With a falsy testAppName,
    [testAppInfoFromOptions] returns the record named ["test-app"], dashed
    [dasherize "test-app"].  With a falsy testAppLocation it returns the
    record whose location is the dasherized test-app name, the name being
    the testAppName when that is a non-empty string and ["test-app"] when
    it is falsy. *)
Theorem falsy_overrides_fall_back_to_defaults
  (dasherize classify : string -> string) (options : object value) :
  (forall entity s,
      truthy (prop "addonLocation" options) = false ->
      prop "entity" options = VObj entity ->
      prop "name" entity = VStr s ->
      addonInfoFromOptions dasherize classify options =
      Ok {| ai_name := {| an_dashed := dasherize s;
                          an_classified := classify s;
                          an_raw := s |};
            ai_entity := VObj entity;
            ai_location := VStr (dasherize s) |})
  /\ (truthy (prop "testAppName" options) = false ->
      testAppInfoFromOptions dasherize options =
      Ok {| ti_name := {| tn_dashed := dasherize "test-app";
                          tn_raw := "test-app" |};
            ti_location := js_or (prop "testAppLocation" options)
                                 (VStr (dasherize "test-app")) |})
  /\ (forall name,
      truthy (prop "testAppLocation" options) = false ->
      (prop "testAppName" options = VStr name /\ name <> "")
      \/ (truthy (prop "testAppName" options) = false /\ name = "test-app") ->
      testAppInfoFromOptions dasherize options =
      Ok {| ti_name := {| tn_dashed := dasherize name; tn_raw := name |};
            ti_location := VStr (dasherize name) |}).
Proof.
  repeat split.
  - intros entity s Hf He Hn.
    rewrite (addonInfoFromOptions_returns _ _ _ He Hn).
    now rewrite js_or_falsy by assumption.
  - intros Hf. unfold testAppInfoFromOptions.
    now rewrite js_or_falsy by assumption.
  - intros name Hf Hname. unfold testAppInfoFromOptions.
    assert (Hn : js_or (prop "testAppName" options) (VStr "test-app")
                 = VStr name).
    { destruct Hname as [[Hs Hne]|[Hs ->]].
      - rewrite Hs. unfold js_or. simpl.
        apply String.eqb_neq in Hne. now rewrite Hne.
      - now apply js_or_falsy. }
    rewrite Hn. cbn [on_string rbind].
    now rewrite js_or_falsy by assumption.
Qed.

Lemma falsy_overrides_fall_back_to_defaults_witness :
  addonInfoFromOptions (fun s => s) (fun s => s)
    [("entity", VObj [("name", VStr "my-addon")]); ("addonLocation", VStr "")] =
  Ok {| ai_name := {| an_dashed := "my-addon"; an_classified := "my-addon";
                      an_raw := "my-addon" |};
        ai_entity := VObj [("name", VStr "my-addon")];
        ai_location := VStr "my-addon" |}
  /\ testAppInfoFromOptions (fun s => s)
       [("testAppName", VStr ""); ("testAppLocation", VNum 0)] =
     Ok {| ti_name := {| tn_dashed := "test-app"; tn_raw := "test-app" |};
           ti_location := VStr "test-app" |}
  /\ testAppInfoFromOptions (fun s => s)
       [("testAppName", VStr "demo-app"); ("testAppLocation", VBool false)] =
     Ok {| ti_name := {| tn_dashed := "demo-app"; tn_raw := "demo-app" |};
           ti_location := VStr "demo-app" |}.
Proof.
  split; [|split].
  - apply (proj1 (@falsy_overrides_fall_back_to_defaults
                    (fun s => s) (fun s => s)
                    [("entity", VObj [("name", VStr "my-addon")]);
                     ("addonLocation", VStr "")])
                 [("name", VStr "my-addon")] "my-addon");
      reflexivity.
  - apply (proj1 (proj2 (@falsy_overrides_fall_back_to_defaults
                           (fun s => s) (fun s => s)
                           [("testAppName", VStr "");
                            ("testAppLocation", VNum 0)]))).
    reflexivity.
  - apply (proj2 (proj2 (@falsy_overrides_fall_back_to_defaults
                           (fun s => s) (fun s => s)
                           [("testAppName", VStr "demo-app");
                            ("testAppLocation", VBool false)]))
                 "demo-app"); [reflexivity|].
    left. split; [reflexivity|discriminate].
Defined.

(** ** Template Variable Builder *)

Lemma kept_flag (a : value) (text : string) (rest : list value) :
  text <> "" ->
  map element_string (filter truthy (js_and a (VStr text) :: rest)) =
  (flag_if a text ++ map element_string (filter truthy rest))%list.
Proof.
  intros Hne. unfold js_and, flag_if. simpl.
  destruct (truthy a) eqn:Ha.
  - simpl. apply String.eqb_neq in Hne. now rewrite Hne.
  - now rewrite Ha.
Qed.

Lemma flag_entries_filtered (options : object value) :
  map element_string (filter truthy (flag_entries options)) =
  spec_supplied_flags options.
Proof.
  unfold flag_entries, spec_supplied_flags, quoted, quoted_eq.
  repeat (rewrite kept_flag by (unfold DQ; simpl; discriminate)).
  simpl. now rewrite app_nil_r.
Qed.

Lemma hasOptions_truthy (options : object value) :
  truthy (hasOptions options) =
  truthy (prop "welcome" options) || truthy (prop "yarn" options)
  || truthy (prop "ciProvider" options).
Proof.
  unfold hasOptions, js_or.
  destruct (truthy (prop "welcome" options)) eqn:W; simpl; rewrite ?W; simpl.
  - reflexivity.
  - destruct (truthy (prop "yarn" options)) eqn:Y; simpl; rewrite ?Y;
      reflexivity.
Qed.

Lemma locals_blueprintOptions dasherize classify version year options l :
  locals dasherize classify version year options = Ok l ->
  l_blueprintOptions l = blueprintOptions options.
Proof.
  unfold locals.
  destruct (addonInfoFromOptions dasherize classify options); simpl;
    [|discriminate].
  destruct (testAppInfoFromOptions dasherize options); simpl; [|discriminate].
  destruct (pathFromAddonToRoot _); simpl; [|discriminate].
  intros H; inversion H; reflexivity.
Qed.

(** [locals] returns whenever the entity name and the locations are
    strings. *)
Lemma locals_returns dasherize classify version year options entity s :
  prop "entity" options = VObj entity ->
  prop "name" entity = VStr s ->
  truthy (prop "addonLocation" options) = false ->
  truthy (prop "testAppName" options) = false ->
  exists l, locals dasherize classify version year options = Ok l
            /\ l_addonName l = dasherize s.
Proof.
  intros He Hn Hl Ht. unfold locals.
  rewrite (addonInfoFromOptions_returns _ _ _ He Hn). simpl.
  unfold testAppInfoFromOptions.
  rewrite (js_or_falsy _ _ Ht), (js_or_falsy _ _ Hl). simpl.
  eexists; split; reflexivity.
Qed.

(** C1 (amended).  The fragment [locals] returns is empty when none of
    welcome, yarn and ciProvider is set; when one of them is, it is not
    empty and lists, between the indent and the outdent, the flag of every
    truthy option among welcome, yarn, vitest, ciProvider, addonLocation,
    testAppLocation, testAppName and releaseIt, and nothing else. *)
Theorem blueprintOptions_lists_supplied_flags
  (dasherize classify : string -> string) (version : value) (year : Z)
  (options : object value) (l : Locals) :
  locals dasherize classify version year options = Ok l ->
  (truthy (prop "welcome" options) = false ->
   truthy (prop "yarn" options) = false ->
   truthy (prop "ciProvider" options) = false ->
   l_blueprintOptions l = "")
  /\ (truthy (prop "welcome" options) || truthy (prop "yarn" options)
      || truthy (prop "ciProvider" options) = true ->
      l_blueprintOptions l <> ""
      /\ l_blueprintOptions l =
         indent ++ join separator (spec_supplied_flags options) ++ outdent).
Proof.
  intros H. rewrite (locals_blueprintOptions _ _ _ _ _ H).
  unfold blueprintOptions. rewrite hasOptions_truthy. split.
  - intros -> -> ->. reflexivity.
  - intros ->. rewrite flag_entries_filtered. split; [|reflexivity].
    unfold indent, LF. simpl. discriminate.
Qed.

Lemma blueprintOptions_lists_supplied_flags_witness :
  exists l,
    locals (fun s => s) (fun s => s) (VStr "0.0.0") 2026
      [("entity", VObj [("name", VStr "my-addon")]);
       ("welcome", VBool true); ("vitest", VBool true)] = Ok l
    /\ l_blueprintOptions l =
       indent
       ++ join separator [DQ ++ "--welcome" ++ DQ; DQ ++ "--vitest" ++ DQ]
       ++ outdent.
Proof.
  eexists; split; [reflexivity|].
  apply (@blueprintOptions_lists_supplied_flags
           (fun s => s) (fun s => s) (VStr "0.0.0") 2026
           [("entity", VObj [("name", VStr "my-addon")]);
            ("welcome", VBool true); ("vitest", VBool true)] _ eq_refl).
  reflexivity.
Defined.

(** C1 as stated fails: with welcome and vitest set, the fragment also
    lists the vitest flag, which is none of the three flags that decide
    whether there is a fragment. *)
Lemma blueprintOptions_lists_more_than_gate_flags :
  ~ (forall (dasherize classify : string -> string) (version : value)
            (year : Z) (options : object value) (l : Locals),
        locals dasherize classify version year options = Ok l ->
        truthy (prop "welcome" options) || truthy (prop "yarn" options)
        || truthy (prop "ciProvider" options) = true ->
        l_blueprintOptions l =
        indent ++ join separator (spec_gate_flags options) ++ outdent).
Proof.
  intros H.
  specialize (H (fun s => s) (fun s => s) (VStr "0.0.0") 2026%Z
                [("entity", VObj [("name", VStr "my-addon")]);
                 ("welcome", VBool true); ("vitest", VBool true)]
                _ eq_refl eq_refl).
  vm_compute in H. discriminate H.
Qed.

(** ** Options handed to the nested generator *)

Lemma has_key_cons (V : Type) k k' (v : V) rest :
  has_key k ((k', v) :: rest) = String.eqb k k' || has_key k rest.
Proof. unfold has_key. simpl. now destruct (String.eqb k k'). Qed.

Lemma filtered_assign_get (skip : string -> bool) (options acc : object value) k :
  unique_keys options = true ->
  obj_get k
    (fold_left
       (fun result entry =>
          let '(key, v) := entry in
          if skip key then result else obj_set key v result)
       options acc) =
  if has_key k options && negb (skip k)
  then obj_get k options
  else obj_get k acc.
Proof.
  revert acc. induction options as [|[k' v'] rest IH]; intros acc Hu.
  - reflexivity.
  - simpl in Hu. apply andb_true_iff in Hu as [Hfresh Hu].
    apply negb_true_iff in Hfresh.
    simpl fold_left. rewrite (IH _ Hu). rewrite has_key_cons. simpl obj_get.
    destruct (String.eqb k k') eqn:E.
    + apply String.eqb_eq in E; subst k'. rewrite Hfresh. simpl.
      destruct (skip k); simpl; [reflexivity|].
      apply obj_get_set_eq.
    + simpl. destruct (has_key k rest && negb (skip k)); [reflexivity|].
      destruct (skip k'); [reflexivity|].
      apply obj_get_set_ne. now apply String.eqb_neq.
Qed.

Lemma withoutAddonOptions_get (options : object value) k :
  unique_keys options = true ->
  obj_get k (withoutAddonOptions options) =
  if includes ADDON_OPTIONS k then None else obj_get k options.
Proof.
  intros Hu. unfold withoutAddonOptions.
  rewrite (filtered_assign_get _ _ _ _ Hu). unfold has_key.
  destruct (includes ADDON_OPTIONS k); destruct (obj_get k options);
    reflexivity.
Qed.

Lemma includes_In l k : includes l k = true <-> In k l.
Proof.
  unfold includes. rewrite existsb_exists. split.
  - intros [x [Hin E]]. apply String.eqb_eq in E. now subst.
  - intros H. exists k. split; [assumption|apply String.eqb_refl].
Qed.

Lemma includes_not_In l k : ~ In k l -> includes l k = false.
Proof.
  intros H. destruct (includes l k) eqn:E; [|reflexivity].
  apply includes_In in E. contradiction.
Qed.

(** ** What a run appends to the trace *)

Section Emits.
Variable P : call -> Prop.

Lemma emits_ret A (a : A) : emits P (ret a).
Proof.
  intros w r w' H. inversion H; subst. exists []. now rewrite app_nil_r.
Qed.

Lemma emits_lift A (x : result A) : emits P (lift x).
Proof.
  intros w r w' H. inversion H; subst. exists []. now rewrite app_nil_r.
Qed.

Lemma emits_throw A e : emits P (@throw A e).
Proof.
  intros w r w' H. inversion H; subst. exists []. now rewrite app_nil_r.
Qed.

Lemma emits_bind A B (m : M A) (f : A -> M B) :
  emits P m -> (forall a, emits P (f a)) -> emits P (bind m f).
Proof.
  intros Hm Hf w r w' H. unfold bind in H.
  destruct (m w) as [[a|e] w1] eqn:E.
  - destruct (Hm _ _ _ E) as [n1 [T1 F1]].
    destruct (Hf a _ _ _ H) as [n2 [T2 F2]].
    exists (n1 ++ n2)%list. split.
    + now rewrite T2, T1, app_assoc.
    + apply Forall_app; auto.
  - inversion H; subst. eauto.
Qed.

Lemma emits_bind_ok A B (a : A) (f : A -> M B) :
  emits P (f a) -> emits P (bind (lift (Ok a)) f).
Proof. intros H w r w' E. exact (H w r w' E). Qed.

Lemma emits_bind_err A B e (f : A -> M B) : emits P (bind (lift (Err e)) f).
Proof.
  intros w r w' H. inversion H; subst. exists []. now rewrite app_nil_r.
Qed.

Lemma emits_perform c effect : P c -> emits P (perform c effect).
Proof.
  intros Hc w r w' H. unfold perform in H.
  exists [c]. destruct (faults w c); inversion H; subst; simpl; auto.
Qed.

Lemma emits_fs_unlink path : P (Unlink path) -> emits P (fs_unlink path).
Proof.
  intros Hc w r w' H. unfold fs_unlink in H.
  destruct (files w path).
  - eapply emits_perform; eassumption.
  - inversion H; subst. exists [Unlink path]. simpl; auto.
Qed.

Lemma emits_execa file args options :
  P (Execa file args options) -> emits P (execa file args options).
Proof. intros Hc w r w' H. eapply emits_perform; eassumption. Qed.

Lemma emits_app_install appOptions :
  P (Install appOptions) -> emits P (app_install appOptions).
Proof. intros Hc w r w' H. eapply emits_perform; eassumption. Qed.

Lemma emits_require_manifest parse path :
  P (Require path) -> emits P (require_manifest parse path).
Proof.
  intros Hc w r w' H. unfold require_manifest in H.
  exists [Require path].
  destruct (faults w (Require path)); [inversion H; subst; simpl; auto|].
  destruct (files w path) as [text|]; [|inversion H; subst; simpl; auto].
  destruct (parse text); inversion H; subst; simpl; auto.
Qed.

Lemma emits_overrideTestAppFiles dest src :
  P (Copy src dest true) -> P (Remove src) ->
  emits P (overrideTestAppFiles dest src).
Proof.
  intros Hc Hr. unfold overrideTestAppFiles, fs_copy, fs_remove.
  apply emits_bind; [|intros _]; now apply emits_perform.
Qed.

Lemma emits_once (m : M unit) :
  emits P m -> emits P (start (once m)) /\ emits P (resume (once m)).
Proof. intros H. split; [exact H|apply emits_ret]. Qed.

Lemma emits_overrideTestAppFiles_task dest src :
  P (Copy src dest true) -> P (Remove src) ->
  emits P (start (overrideTestAppFiles_task dest src))
  /\ emits P (resume (overrideTestAppFiles_task dest src)).
Proof. intros Hc Hr. split; now apply emits_perform. Qed.

Lemma emits_start_all (tasks : list task) :
  Forall (fun t => emits P (start t) /\ emits P (resume t)) tasks ->
  forall w started w',
    start_all tasks w = (started, w') ->
    Forall (fun sk => emits P (snd sk)) started
    /\ exists new, trace w' = (trace w ++ new)%list /\ Forall P new.
Proof.
  induction 1 as [|t rest [Hs Hk] _ IH]; intros w started w' H; simpl in H.
  - inversion H; subst. split; [constructor|].
    exists []. now rewrite app_nil_r.
  - destruct (start t w) as [r w1] eqn:E1.
    destruct (start_all rest w1) as [started' w2] eqn:E2.
    inversion H; subst.
    destruct (Hs _ _ _ E1) as [n1 [T1 F1]].
    destruct (IH _ _ _ E2) as [Hrest [n2 [T2 F2]]].
    split; [constructor; assumption|].
    exists (n1 ++ n2)%list. split.
    + now rewrite T2, T1, app_assoc.
    + apply Forall_app; auto.
Qed.

Lemma emits_resume_all (started : list (result unit * M unit)) :
  Forall (fun sk => emits P (snd sk)) started ->
  forall w rs w',
    resume_all started w = (rs, w') ->
    exists new, trace w' = (trace w ++ new)%list /\ Forall P new.
Proof.
  induction 1 as [|[[u|e] k] rest Hk _ IH]; intros w rs w' H; simpl in H.
  - inversion H; subst. exists []. now rewrite app_nil_r.
  - destruct (k w) as [r w1] eqn:E1.
    destruct (resume_all rest w1) as [rs' w2] eqn:E2.
    inversion H; subst.
    destruct (Hk _ _ _ E1) as [n1 [T1 F1]].
    destruct (IH _ _ _ E2) as [n2 [T2 F2]].
    exists (n1 ++ n2)%list. split.
    + now rewrite T2, T1, app_assoc.
    + apply Forall_app; auto.
  - destruct (resume_all rest w) as [rs' w2] eqn:E2.
    inversion H; subst. eapply IH; eassumption.
Qed.

Lemma emits_promise_all (tasks : list task) :
  Forall (fun t => emits P (start t) /\ emits P (resume t)) tasks ->
  emits P (promise_all tasks).
Proof.
  intros Ht w r w' H. unfold promise_all in H.
  destruct (start_all tasks w) as [started w1] eqn:E1.
  destruct (resume_all started w1) as [rs w2] eqn:E2.
  inversion H; subst.
  destruct (emits_start_all Ht _ E1) as [Hk [n1 [T1 F1]]].
  destruct (emits_resume_all Hk _ E2) as [n2 [T2 F2]].
  exists (n1 ++ n2)%list. split.
  - now rewrite T2, T1, app_assoc.
  - apply Forall_app; auto.
Qed.
End Emits.

Section OrchestratorTrace.
Variables dasherize classify : string -> string.
Variable blueprintVersion : value.
Variable year : Z.
Variable path_join : string -> string -> string.
Variable dirname : string.
Variable additions : object json.
Variable parse_manifest : string -> option (object json).
Variable sortPackageJson : json -> json.
Variable stringify : json -> string.
Variable this : blueprint.

Variable P : call -> Prop.

Lemma emits_updateTestAppPackageJson path :
  P (Require path) ->
  (forall content, P (WriteFile path content)) ->
  emits P (updateTestAppPackageJson dasherize classify blueprintVersion year
             additions parse_manifest sortPackageJson stringify this path).
Proof.
  intros Hr Hw. unfold updateTestAppPackageJson.
  apply emits_bind; [now apply emits_require_manifest|intros pkg].
  apply emits_bind; [apply emits_lift|intros l].
  apply emits_bind; [apply emits_lift|intros pkg'].
  apply emits_perform. apply Hw.
Qed.

(** What [afterInstall] may append: file calls, the two commands when
    their options are truthy, and one call of the nested generator with
    the option record built from the options. *)
Lemma emits_afterInstall (options : object value) :
  (forall c, is_install c = false -> is_execa c = false -> P c) ->
  (truthy (prop "vitest" options) = true ->
   forall target, P (Execa "ember" vitest_args [("cwd", VStr target)])) ->
  (truthy (prop "releaseIt" options) = true ->
   forall target,
     P (Execa "create-rwjblue-release-it-setup" ["--no-install"]
              [("cwd", VStr target); ("preferLocal", VBool true);
               ("localDir", VStr dirname)])) ->
  (forall info target location,
      testAppInfoFromOptions dasherize options = Ok info ->
      prop "target" options = VStr target ->
      ti_location info = VStr location ->
      P (Install (appOptionsFor options (path_join target location)
                                (tn_raw (ti_name info))))) ->
  emits P (afterInstall dasherize classify blueprintVersion year path_join
             dirname additions parse_manifest sortPackageJson stringify
             this options).
Proof.
  intros Hfile Hvitest Hrelease Hinstall. unfold afterInstall.
  destruct (negb (this_app_blueprint this)); [apply emits_throw|].
  destruct (testAppInfoFromOptions dasherize options) as [info|e] eqn:Ei;
    [apply emits_bind_ok|apply emits_bind_err].
  destruct (prop "target" options) as [| | | |target|] eqn:Et;
    try apply emits_throw.
  destruct (ti_location info) as [| | | |location|] eqn:El;
    try apply emits_throw.
  apply emits_bind.
  - apply emits_app_install. now apply Hinstall.
  - intros _. apply emits_promise_all. unfold install_tasks.
    repeat apply Forall_cons.
    + apply emits_once.
      apply emits_updateTestAppPackageJson; [|intros content];
        now apply Hfile.
    + apply emits_overrideTestAppFiles_task; now apply Hfile.
    + apply emits_once. apply emits_fs_unlink; now apply Hfile.
    + apply Forall_app. split.
      * destruct (truthy (prop "vitest" options)); constructor;
          [|constructor]. apply emits_once. apply emits_execa.
        now apply Hvitest.
      * destruct (truthy (prop "releaseIt" options)); constructor;
          [|constructor]. apply emits_once. unfold setupReleaseIt.
        apply emits_execa. now apply Hrelease.
Qed.
End OrchestratorTrace.

(** ** Installer Orchestrator *)

(** C8.  With releaseIt and vitest false, whatever [afterInstall] does
    and however it ends, none of the calls it makes is a process
    invocation. *)
Theorem afterInstall_runs_no_process
  (dasherize classify : string -> string) (blueprintVersion : value) (year : Z)
  (path_join : string -> string -> string) (dirname : string)
  (additions : object json) (parse_manifest : string -> option (object json))
  (sortPackageJson : json -> json) (stringify : json -> string)
  (this : blueprint) (options : object value) (w w' : world) (r : result unit) :
  truthy (prop "releaseIt" options) = false ->
  truthy (prop "vitest" options) = false ->
  afterInstall dasherize classify blueprintVersion year path_join dirname
    additions parse_manifest sortPackageJson stringify this options w = (r, w') ->
  exists new,
    trace w' = (trace w ++ new)%list
    /\ Forall (fun c => is_execa c = false) new.
Proof.
  intros Hr Hv H.
  refine (@emits_afterInstall dasherize classify blueprintVersion year
            path_join dirname additions parse_manifest sortPackageJson
            stringify this (fun c => is_execa c = false) options
            _ _ _ _ w r w' H).
  - auto.
  - rewrite Hv. discriminate.
  - rewrite Hr. discriminate.
  - reflexivity.
Qed.

Lemma afterInstall_runs_no_process_witness :
  exists new,
    trace (snd (Demo.run Demo.options Demo.start)) = (trace Demo.start ++ new)%list
    /\ Forall (fun c => is_execa c = false) new.
Proof.
  apply (@afterInstall_runs_no_process
           Demo.dasherize Demo.classify VUndefined 2026 Demo.path_join
           Demo.dirname Demo.additions Demo.parse_manifest Demo.sortPackageJson
           Demo.stringify Demo.this Demo.options Demo.start _
           (fst (Demo.run Demo.options Demo.start)));
    reflexivity.
Defined.

Lemma appOptionsFor_get (options : object value) (testAppPath raw : string) k :
  obj_get k (appOptionsFor options testAppPath raw) =
  if String.eqb k "welcome" then Some (VBool false)
  else if String.eqb k "ciProvider" then Some (VStr "travis")
  else if String.eqb k "rawName" then Some (VStr raw)
  else if String.eqb k "name" then Some (VStr raw)
  else if String.eqb k "entity" then Some (VObj [("name", VStr raw)])
  else if String.eqb k "skipGit" then Some (VBool true)
  else if String.eqb k "skipNpm" then Some (VBool true)
  else if String.eqb k "target" then Some (VStr testAppPath)
  else obj_get k (withoutAddonOptions options).
Proof.
  unfold appOptionsFor, assign. cbn [fold_left fst snd].
  now rewrite !obj_get_set.
Qed.

Lemma appOptionsFor_meets_spec (options : object value) (testAppPath raw : string) :
  unique_keys options = true ->
  prop "target" (appOptionsFor options testAppPath raw) = VStr testAppPath
  /\ app_options_spec APP_OVERRIDES options raw
       (appOptionsFor options testAppPath raw).
Proof.
  intros Hu. unfold app_options_spec, prop.
  repeat split; try (rewrite appOptionsFor_get; reflexivity).
  - intros k Hin. rewrite appOptionsFor_get, (withoutAddonOptions_get _ _ Hu).
    apply includes_In in Hin. rewrite Hin.
    simpl in Hin. repeat (apply orb_prop in Hin as [Hin|Hin]);
      try discriminate; apply String.eqb_eq in Hin; subst; reflexivity.
  - intros k Hadd Hover.
    rewrite appOptionsFor_get, (withoutAddonOptions_get _ _ Hu).
    rewrite (includes_not_In _ _ Hadd).
    apply includes_not_In in Hover. simpl in Hover.
    repeat (apply orb_false_elim in Hover as [?E Hover]).
    now rewrite E5, E4, E3, E2, E1, E0, E, E6.
Qed.

(** C2 (amended).  Every call [afterInstall] makes to the nested
    generator passes a record in which the addon options are stripped,
    [target] is the test-app path, skipNpm and skipGit are true,
    entity.name, name and rawName are the test-app's raw name, welcome is
    false and ciProvider is the placeholder; every key of the options
    that is neither an addon option nor one of those overridden keys has
    the value it has in the options. *)
Theorem afterInstall_app_options
  (dasherize classify : string -> string) (blueprintVersion : value) (year : Z)
  (path_join : string -> string -> string) (dirname : string)
  (additions : object json) (parse_manifest : string -> option (object json))
  (sortPackageJson : json -> json) (stringify : json -> string)
  (this : blueprint) (options : object value) (w w' : world) (r : result unit) :
  unique_keys options = true ->
  afterInstall dasherize classify blueprintVersion year path_join dirname
    additions parse_manifest sortPackageJson stringify this options w = (r, w') ->
  exists new,
    trace w' = (trace w ++ new)%list
    /\ forall appOptions,
      In (Install appOptions) new ->
      exists info target location,
        testAppInfoFromOptions dasherize options = Ok info
        /\ prop "target" options = VStr target
        /\ ti_location info = VStr location
        /\ prop "target" appOptions = VStr (path_join target location)
        /\ app_options_spec APP_OVERRIDES options (tn_raw (ti_name info))
             appOptions.
Proof.
  intros Hu H.
  destruct (@emits_afterInstall dasherize classify blueprintVersion year
              path_join dirname additions parse_manifest sortPackageJson
              stringify this
              (fun c => forall appOptions, c = Install appOptions ->
                 exists info target location,
                   testAppInfoFromOptions dasherize options = Ok info
                   /\ prop "target" options = VStr target
                   /\ ti_location info = VStr location
                   /\ prop "target" appOptions = VStr (path_join target location)
                   /\ app_options_spec APP_OVERRIDES options
                        (tn_raw (ti_name info)) appOptions)
              options) with (w := w) (r := r) (w' := w') as [new [T F]];
    try assumption.
  - intros c Hc _ ao ->. discriminate Hc.
  - intros _ target ao E. discriminate E.
  - intros _ target ao E. discriminate E.
  - intros info target location Hi Ht Hl ao E. inversion E; subst ao.
    exists info, target, location.
    destruct (appOptionsFor_meets_spec options (path_join target location)
                (tn_raw (ti_name info)) Hu) as [Htarget Hspec].
    auto.
  - exists new. split; [assumption|].
    intros ao Hin. rewrite Forall_forall in F. exact (F _ Hin _ eq_refl).
Qed.

Lemma afterInstall_app_options_witness :
  exists new,
    trace (snd (Demo.run Demo.options Demo.start)) = (trace Demo.start ++ new)%list
    /\ forall appOptions,
      In (Install appOptions) new ->
      exists info target location,
        testAppInfoFromOptions Demo.dasherize Demo.options = Ok info
        /\ prop "target" Demo.options = VStr target
        /\ ti_location info = VStr location
        /\ prop "target" appOptions = VStr (Demo.path_join target location)
        /\ app_options_spec APP_OVERRIDES Demo.options (tn_raw (ti_name info))
             appOptions.
Proof.
  apply (@afterInstall_app_options
           Demo.dasherize Demo.classify VUndefined 2026 Demo.path_join
           Demo.dirname Demo.additions Demo.parse_manifest Demo.sortPackageJson
           Demo.stringify Demo.this Demo.options Demo.start _
           (fst (Demo.run Demo.options Demo.start)));
    reflexivity.
Defined.

(** C2 as stated fails: [target] is not among the keys the claim lists as
    overridden, yet the record's [target] is the test-app path and not the
    options' [target]. *)
Lemma afterInstall_app_options_target_changes :
  exists appOptions,
    In (Install appOptions) (trace (snd (Demo.run Demo.options Demo.start)))
    /\ ~ app_options_spec STATED_OVERRIDES Demo.options "test-app" appOptions
    /\ prop "target" appOptions = VStr "/tmp/x/test-app"
    /\ prop "target" Demo.options = VStr "/tmp/x".
Proof.
  eexists. split; [left; reflexivity|]. split; [|split; reflexivity].
  intros Hspec. unfold app_options_spec in Hspec.
  destruct Hspec as (_ & _ & _ & _ & _ & _ & _ & _ & Hpass).
  specialize (Hpass "target").
  assert (Hne : obj_get "target" Demo.options = Some (VStr "/tmp/x"))
    by reflexivity.
  rewrite Hne in Hpass.
  assert (H : Some (VStr "/tmp/x/test-app") = Some (VStr "/tmp/x")).
  { apply Hpass.
    - simpl. intuition discriminate.
    - simpl. intuition discriminate. }
  discriminate H.
Qed.

(** ** Paths *)

Lemma strip_prefix_app d s : strip_prefix d (d ++ s) = Some s.
Proof. induction d as [|c d IH]; simpl; [reflexivity|]. now rewrite Ascii.eqb_refl. Qed.

Lemma strip_prefix_Some d p s : strip_prefix d p = Some s -> p = d ++ s.
Proof.
  revert p. induction d as [|c d IH]; intros p H; simpl in *.
  - now inversion H.
  - destruct p as [|c' p]; [discriminate|].
    destruct (Ascii.eqb c c') eqn:E; [|discriminate].
    apply Ascii.eqb_eq in E; subst c'. now rewrite (IH _ H).
Qed.

Lemma under_Some d p rel : under d p = Some rel -> p = d ++ rel /\ is_rest rel.
Proof.
  unfold under. destruct (strip_prefix d p) as [[|c r]|] eqn:E; try discriminate.
  - intros H; inversion H; subst. split; [now apply strip_prefix_Some|now left].
  - destruct (Ascii.eqb c "/") eqn:Ec; [|discriminate].
    intros H; inversion H; subst. apply Ascii.eqb_eq in Ec; subst c.
    split; [now apply strip_prefix_Some|right; eauto].
Qed.

Lemma under_app d rel : is_rest rel -> under d (d ++ rel) = Some rel.
Proof.
  intros [->|[r ->]]; unfold under; rewrite strip_prefix_app; reflexivity.
Qed.

Lemma append_assoc (a b c : string) : (a ++ b) ++ c = a ++ (b ++ c).
Proof. induction a as [|x a IH]; simpl; [reflexivity|now rewrite IH]. Qed.

(** Two ways of cutting one string: one cut is inside the other's
    prefix. *)
Lemma append_eq_append (a b c d : string) :
  a ++ b = c ++ d ->
  exists x, (c = a ++ x /\ b = x ++ d) \/ (a = c ++ x /\ d = x ++ b).
Proof.
  revert c. induction a as [|h a IH]; intros c H; simpl in H.
  - exists c. left. auto.
  - destruct c as [|h' c]; simpl in H.
    + exists (String h a). right. auto.
    + inversion H; subst h'. destruct (IH _ H2) as [x [[-> ->]|[-> ->]]];
        exists x; [left|right]; auto.
Qed.

(** Two directories neither of which lies under the other share no
    path. *)
Lemma under_disjoint a b p ra :
  under a b = None -> under b a = None ->
  under a p = Some ra -> under b p = None.
Proof.
  intros Hab Hba Ha.
  destruct (under b p) as [rb|] eqn:Hb; [exfalso|reflexivity].
  apply under_Some in Ha as [Ea Ra]. apply under_Some in Hb as [Eb Rb].
  rewrite Ea in Eb.
  destruct (append_eq_append _ _ _ _ Eb) as [x [[Hb' Hr]|[Ha' Hr]]].
  - (* b = a ++ x *)
    assert (Rx : is_rest x).
    { destruct x as [|c x]; [now left|].
      destruct Ra as [->|[r ->]]; [discriminate|].
      inversion Hr; subst. right; eauto. }
    rewrite Hb', (under_app _ Rx) in Hab. discriminate.
  - assert (Rx : is_rest x).
    { destruct x as [|c x]; [now left|].
      destruct Rb as [->|[r ->]]; [discriminate|].
      inversion Hr; subst. right; eauto. }
    rewrite Ha', (under_app _ Rx) in Hba. discriminate.
Qed.

(** ** Override File Relocator *)

(** Awaited on its own, the function is its task's start followed by
    what the task resumes with. *)
Lemma overrideTestAppFiles_runs_its_task (testAppPath overridesPath : string) :
  overrideTestAppFiles testAppPath overridesPath =
  bind (start (overrideTestAppFiles_task testAppPath overridesPath))
       (fun _ => resume (overrideTestAppFiles_task testAppPath overridesPath)).
Proof. reflexivity. Qed.

(** The two ways a run of [overrideTestAppFiles] can go. *)
Lemma overrideTestAppFiles_outcome
  (testAppPath overridesPath : string) (w w' : world) (r : result unit) :
  overrideTestAppFiles testAppPath overridesPath w = (r, w') ->
  match faults w (Copy overridesPath testAppPath true) with
  | Some code =>
      r = Err (EnvError code)
      /\ trace w' = (trace w ++ [Copy overridesPath testAppPath true])%list
  | None =>
      trace w' = (trace w ++ [Copy overridesPath testAppPath true;
                              Remove overridesPath])%list
      /\ (r = Ok tt ->
          files w' =
          remove_files overridesPath
            (copy_files overridesPath testAppPath (files w)))
  end.
Proof.
  unfold overrideTestAppFiles, bind, fs_copy, fs_remove, perform. simpl.
  destruct (faults w (Copy overridesPath testAppPath true)) as [code|].
  - intros H; inversion H; subst. auto.
  - intros H. cbn in H.
    destruct (faults w (Remove overridesPath));
      inversion H; subst; cbn; rewrite <- app_assoc;
        (split; [reflexivity|]); [discriminate|reflexivity].
Qed.

(** C3.  If the copy fails, [overrideTestAppFiles] ends with the copy's
    error and the copy is the only call it made: the removal of the
    staging directory is never called.  The removal is called only when
    the copy succeeded, and then right after it. *)
Theorem staging_removed_only_after_copy
  (testAppPath overridesPath : string) (w w' : world) (r : result unit) :
  overrideTestAppFiles testAppPath overridesPath w = (r, w') ->
  exists new,
    trace w' = (trace w ++ new)%list
    /\ (forall code,
          faults w (Copy overridesPath testAppPath true) = Some code ->
          r = Err (EnvError code)
          /\ new = [Copy overridesPath testAppPath true]
          /\ ~ In (Remove overridesPath) new)
    /\ (In (Remove overridesPath) new ->
        faults w (Copy overridesPath testAppPath true) = None
        /\ new = [Copy overridesPath testAppPath true; Remove overridesPath]).
Proof.
  intros H. apply overrideTestAppFiles_outcome in H.
  destruct (faults w (Copy overridesPath testAppPath true)) as [code|].
  - destruct H as (Hr & Ht).
    exists [Copy overridesPath testAppPath true]. split; [assumption|]. split.
    + intros code' E. inversion E; subst code'. repeat split; try assumption.
      intros [Hin|[]]. discriminate Hin.
    + intros [Hin|[]]. discriminate Hin.
  - destruct H as [Ht _].
    exists [Copy overridesPath testAppPath true; Remove overridesPath].
    split; [assumption|]. split.
    + discriminate.
    + auto.
Qed.

Lemma staging_removed_only_after_copy_witness :
  exists new,
    trace (snd (overrideTestAppFiles "test-app" "/tmp/x/test-app-overrides"
                  Demo.copy_fails)) = new
    /\ fst (overrideTestAppFiles "test-app" "/tmp/x/test-app-overrides"
              Demo.copy_fails) = Err (EnvError "EACCES")
    /\ new = [Copy "/tmp/x/test-app-overrides" "test-app" true]
    /\ ~ In (Remove "/tmp/x/test-app-overrides") new.
Proof.
  destruct (@staging_removed_only_after_copy
              "test-app" "/tmp/x/test-app-overrides" Demo.copy_fails
              (snd (overrideTestAppFiles "test-app" "/tmp/x/test-app-overrides"
                      Demo.copy_fails))
              (fst (overrideTestAppFiles "test-app" "/tmp/x/test-app-overrides"
                      Demo.copy_fails))
              eq_refl) as [new (Ht & Hfail & _)].
  exists new. split; [exact Ht|].
  exact (Hfail "EACCES" eq_refl).
Defined.

(** C4.  When the staging directory and the destination do not lie one
    under the other and [overrideTestAppFiles] succeeds: every staging
    file is in the destination at its relative path; a destination file
    whose relative path has no file in the staging directory is as it
    was; so is every file outside both directories; and the staging
    directory is gone. *)
Theorem override_relocation_only_overlays
  (testAppPath overridesPath : string) (w w' : world) :
  under overridesPath testAppPath = None ->
  under testAppPath overridesPath = None ->
  overrideTestAppFiles testAppPath overridesPath w = (Ok tt, w') ->
  (forall rel content,
      is_rest rel ->
      files w (overridesPath ++ rel) = Some content ->
      files w' (testAppPath ++ rel) = Some content)
  /\ (forall p rel,
      under testAppPath p = Some rel ->
      files w (overridesPath ++ rel) = None ->
      files w' p = files w p)
  /\ (forall p,
      under testAppPath p = None -> under overridesPath p = None ->
      files w' p = files w p)
  /\ (forall p rel, under overridesPath p = Some rel -> files w' p = None).
Proof.
  intros Hsd Hds H.
  pose proof (overrideTestAppFiles_outcome _ _ _ H) as C.
  destruct (faults w (Copy overridesPath testAppPath true));
    [destruct C as [C _]; discriminate C|].
  destruct C as [_ C]. specialize (C eq_refl). rewrite C.
  unfold remove_files, copy_files. repeat split.
  - intros rel content Hrel Hfile.
    rewrite (under_disjoint _ _ _ Hds Hsd (under_app testAppPath Hrel)).
    now rewrite (under_app _ Hrel), Hfile.
  - intros p rel Hp Hfile.
    now rewrite (under_disjoint _ _ _ Hds Hsd Hp), Hp, Hfile.
  - intros p Hd Hs. now rewrite Hs, Hd.
  - intros p rel Hp. now rewrite Hp.
Qed.

Lemma override_relocation_only_overlays_witness :
  let after :=
    files (snd (overrideTestAppFiles "test-app" "/tmp/x/test-app-overrides"
                  Demo.start)) in
  after "test-app/ember-cli-build.js" = Some "override build"
  /\ after "test-app/app/app.js" = Some "generated app"
  /\ after "/tmp/x/test-app-overrides/ember-cli-build.js" = None.
Proof.
  destruct (@override_relocation_only_overlays
              "test-app" "/tmp/x/test-app-overrides" Demo.start
              (snd (overrideTestAppFiles "test-app" "/tmp/x/test-app-overrides"
                      Demo.start))
              eq_refl eq_refl eq_refl) as (HB & HA & _ & HS).
  intros after. split; [|split].
  - apply (HB "/ember-cli-build.js" "override build");
      [right; eexists; reflexivity|reflexivity].
  - unfold after. rewrite (HA "test-app/app/app.js" "/app/app.js");
      reflexivity.
  - apply (HS _ "/ember-cli-build.js"). reflexivity.
Defined.

(** ** Name Normalizer *)

(** C9.  In an ember-cli project that is not an addon,
    [normalizeEntityName] always ends in an error and leaves the world as
    it was; for a name the normalizer accepts, that error is the
    SilentError saying that generating an addon there is not supported.
    In any other project it returns the normalized name. *)
Theorem normalizeEntityName_guards_foreign_project
  (normalize : value -> result value) (this : blueprint)
  (entityName : value) (w : world) :
  (this_isEmberCLIProject this = true ->
   this_isEmberCLIAddon this = false ->
   exists e, normalizeEntityName normalize this entityName w = (Err e, w))
  /\ (forall n,
      normalize entityName = Ok n ->
      normalizeEntityName normalize this entityName w =
      (if this_isEmberCLIProject this && negb (this_isEmberCLIAddon this)
       then Err (SilentError
                   "Generating an addon in an existing ember-cli project is not supported.")
       else Ok n, w)).
Proof.
  unfold normalizeEntityName, bind, lift. split.
  - intros -> ->. destruct (normalize entityName); simpl; unfold throw; eauto.
  - intros n ->.
    now destruct (this_isEmberCLIProject this && negb (this_isEmberCLIAddon this)).
Qed.

Lemma normalizeEntityName_guards_foreign_project_witness :
  normalizeEntityName Demo.normalize Demo.foreign_project (VStr "my-addon")
    Demo.start =
  (Err (SilentError
          "Generating an addon in an existing ember-cli project is not supported."),
   Demo.start)
  /\ normalizeEntityName Demo.normalize Demo.this (VStr "my-addon") Demo.start =
     (Ok (VStr "my-addon"), Demo.start).
Proof.
  split.
  - apply (proj2 (@normalizeEntityName_guards_foreign_project
                    Demo.normalize Demo.foreign_project (VStr "my-addon")
                    Demo.start) (VStr "my-addon")).
    reflexivity.
  - apply (proj2 (@normalizeEntityName_guards_foreign_project
                    Demo.normalize Demo.this (VStr "my-addon")
                    Demo.start) (VStr "my-addon")).
    reflexivity.
Defined.

(** ** Package Manifest Patcher *)

(** Induction on JSON that reaches into arrays and objects. *)
Lemma json_nested_ind (P : json -> Prop) :
  P JNull -> (forall b, P (JBool b)) -> (forall n, P (JNum n)) ->
  (forall s, P (JStr s)) ->
  (forall elements, Forall P elements -> P (JArr elements)) ->
  (forall members, Forall (fun kv => P (snd kv)) members -> P (JObj members)) ->
  forall j, P j.
Proof.
  intros Hnull Hbool Hnum Hstr Harr Hobj.
  fix IH 1. intros [| b | n | s | elements | members].
  - exact Hnull.
  - apply Hbool.
  - apply Hnum.
  - apply Hstr.
  - apply Harr. induction elements as [|x rest IHrest]; constructor.
    + apply IH.
    + exact IHrest.
  - apply Hobj. induction members as [|[k v] rest IHrest]; constructor.
    + apply IH.
    + exact IHrest.
Qed.

Lemma merge_value_JObj sf (o : option json) :
  merge_value (JObj sf) o =
  match o with
  | Some (JObj df) => JObj (merge df sf)
  | Some (JArr da) => JArr da
  | _ => JObj (merge [] sf)
  end.
Proof.
  assert (E : forall sf d,
             (fix go (sf : list (string * json)) (dest : object json)
                : object json :=
                match sf with
                | [] => dest
                | (k, v) :: rest =>
                    go rest (obj_set k (merge_value v (obj_get k dest)) dest)
                end) sf d = merge d sf).
  { clear. induction sf as [|[k v] rest IH]; intros d; simpl;
      [reflexivity|apply IH]. }
  destruct o as [[| | | | |]|]; simpl; rewrite ?E; reflexivity.
Qed.

Lemma merge_value_JArr sa (o : option json) :
  merge_value (JArr sa) o =
  match o with
  | Some (JArr da) => JArr (merge_elements sa da)
  | _ => JArr (merge_elements sa [])
  end.
Proof.
  assert (E : forall sa d,
             (fix go (sa dest : list json) : list json :=
                match sa, dest with
                | [], _ => dest
                | s :: ss, [] => merge_value s None :: go ss []
                | s :: ss, d :: ds => merge_value s (Some d) :: go ss ds
                end) sa d = merge_elements sa d).
  { clear. induction sa as [|s ss IH]; intros [|d ds]; simpl;
      try reflexivity; now rewrite IH. }
  destruct o as [[| | | | |]|]; simpl; rewrite ?E; reflexivity.
Qed.

Lemma unique_keys_get (V : Type) (o : object V) k v :
  unique_keys o = true -> In (k, v) o -> obj_get k o = Some v.
Proof.
  induction o as [|[k' v'] rest IH]; simpl; [tauto|].
  intros Hu [H|H]; apply andb_true_iff in Hu as [Hfresh Hu].
  - inversion H; subst. now rewrite String.eqb_refl.
  - destruct (String.eqb k k') eqn:E.
    + apply String.eqb_eq in E; subst k'.
      apply negb_true_iff in Hfresh. unfold has_key in Hfresh.
      rewrite (IH Hu H) in Hfresh. discriminate.
    + now apply IH.
Qed.

(** What a key holds after a merge. *)
Lemma merge_get (source dest : object json) k :
  unique_keys source = true ->
  obj_get k (merge dest source) =
  match obj_get k source with
  | Some v => Some (merge_value v (obj_get k dest))
  | None => obj_get k dest
  end.
Proof.
  revert dest. induction source as [|[k' v'] rest IH]; intros dest Hu.
  - reflexivity.
  - simpl in Hu. apply andb_true_iff in Hu as [Hfresh Hu].
    apply negb_true_iff in Hfresh. unfold has_key in Hfresh.
    simpl. rewrite (IH _ Hu), obj_get_set.
    destruct (String.eqb k k') eqn:E.
    + apply String.eqb_eq in E; subst k'.
      destruct (obj_get k rest); [discriminate|reflexivity].
    + reflexivity.
Qed.

(** Merging a source whose every value is already merged in changes
    nothing. *)
Lemma merge_fixed (source dest : object json) :
  (forall k v, In (k, v) source ->
     exists w, obj_get k dest = Some w /\ merge_value v (Some w) = w) ->
  merge dest source = dest.
Proof.
  induction source as [|[k v] rest IH]; intros H; simpl; [reflexivity|].
  destruct (H k v (or_introl eq_refl)) as [w [Hg Hm]].
  rewrite Hg, Hm, (obj_set_same _ _ Hg).
  apply IH. intros k0 v0 Hin. apply H. now right.
Qed.

Lemma merge_elements_idempotent (sa : list json) :
  Forall (fun s => forall o,
            merge_value s (Some (merge_value s o)) = merge_value s o) sa ->
  forall dest,
    merge_elements sa (merge_elements sa dest) = merge_elements sa dest.
Proof.
  induction 1 as [|s ss Hs _ IH]; intros [|d ds]; simpl;
    try reflexivity; now rewrite Hs, IH.
Qed.

Lemma merge_value_idempotent (src : json) :
  wf_json src = true ->
  forall o, merge_value src (Some (merge_value src o)) = merge_value src o.
Proof.
  induction src as [| b | n | s | elements IH | members IH]
    using json_nested_ind; intros Hwf o; try reflexivity.
  - assert (Hall : Forall (fun s => forall o,
                merge_value s (Some (merge_value s o)) = merge_value s o)
              elements).
    { simpl in Hwf. rewrite forallb_forall in Hwf.
      rewrite Forall_forall in IH |- *. intros x Hx. apply IH; auto. }
    destruct o as [[| | | | da |]|];
      repeat (rewrite merge_value_JArr; cbv beta iota);
      now rewrite (merge_elements_idempotent Hall).
  - simpl in Hwf. apply andb_true_iff in Hwf as [Hu Hwf].
    assert (Hidem : forall dest,
               merge (merge dest members) members = merge dest members).
    { intros dest. apply merge_fixed. intros k v Hin.
      exists (merge_value v (obj_get k dest)). split.
      - rewrite merge_get by assumption.
        now rewrite (@unique_keys_get _ _ _ _ Hu Hin).
      - rewrite Forall_forall in IH. apply (IH (k, v) Hin).
        rewrite forallb_forall in Hwf. apply (Hwf (k, v) Hin). }
    destruct o as [[| | | | da | df]|];
      repeat (rewrite merge_value_JObj; cbv beta iota);
      now rewrite ?Hidem.
Qed.

Lemma merge_idempotent (additions pkg : object json) :
  wf_json (JObj additions) = true ->
  merge (merge pkg additions) additions = merge pkg additions.
Proof.
  intros Hwf.
  pose proof (merge_value_idempotent _ Hwf (Some (JObj pkg))) as H.
  repeat (rewrite merge_value_JObj in H; cbv beta iota in H).
  injection H as H. exact H.
Qed.

(** C6.  Merging the bundled fragment a second time changes nothing, so
    the sorted, serialized manifest is the same after two merges as after
    one. *)
Theorem manifest_patch_idempotent
  (sortPackageJson : json -> json) (stringify : json -> string)
  (additions pkg : object json) :
  wf_json (JObj additions) = true ->
  stringify (sortPackageJson (JObj (merge (merge pkg additions) additions))) =
  stringify (sortPackageJson (JObj (merge pkg additions))).
Proof. intros Hwf. now rewrite (merge_idempotent _ pkg Hwf). Qed.

Lemma manifest_patch_idempotent_witness :
  Demo.stringify
    (Demo.sortPackageJson
       (JObj (merge (merge Demo.manifest Demo.additions) Demo.additions))) =
  Demo.stringify
    (Demo.sortPackageJson (JObj (merge Demo.manifest Demo.additions))).
Proof.
  apply (@manifest_patch_idempotent Demo.sortPackageJson Demo.stringify
           Demo.additions Demo.manifest).
  reflexivity.
Defined.






(** A fragment that carries a devDependencies object leaves one in every
    merged manifest whose own devDependencies is not an array. *)
Lemma merge_keeps_devDependencies_object (additions pkg d : object json) :
  unique_keys additions = true ->
  obj_get "devDependencies" additions = Some (JObj d) ->
  (forall elements, obj_get "devDependencies" pkg <> Some (JArr elements)) ->
  exists deps, obj_get "devDependencies" (merge pkg additions) = Some (JObj deps).
Proof.
  intros Hu Hd Harr. rewrite merge_get by assumption. rewrite Hd.
  rewrite merge_value_JObj.
  destruct (obj_get "devDependencies" pkg) as [[| | | | elements | df]|];
    eauto.
  now destruct (Harr elements).
Qed.

(** ** The blueprint at work on the small environment *)

(** The test-app path of the specification's example: target [/tmp/x]
    and no [testAppName] resolve to [/tmp/x/test-app].  The removal of
    the overrides comes last: it waits for the copy, and by then every
    task has been started. *)
Example demo_run_trace :
  trace (snd (Demo.run Demo.options Demo.start)) =
  [ Install
      [ ("entity", VObj [("name", VStr "test-app")]);
        ("target", VStr "/tmp/x/test-app");
        ("vitest", VBool false);
        ("skipNpm", VBool true);
        ("skipGit", VBool true);
        ("name", VStr "test-app");
        ("rawName", VStr "test-app");
        ("ciProvider", VStr "travis");
        ("welcome", VBool false) ];
    Require "/tmp/x/test-app/package.json";
    WriteFile "/tmp/x/test-app/package.json" "name,devDependencies,scripts";
    Copy "/tmp/x/test-app-overrides" "test-app" true;
    Unlink "/tmp/x/test-app/.travis.yml";
    Remove "/tmp/x/test-app-overrides" ].
Proof. reflexivity. Qed.

(** With both options set, the two commands run last, vitest first. *)
Example demo_run_with_commands :
  filter is_execa
    (trace (snd (Demo.run
                   (assign Demo.options
                      [("vitest", VBool true); ("releaseIt", VBool true)])
                   Demo.start))) =
  [ Execa "ember" vitest_args [("cwd", VStr "/tmp/x")];
    Execa "create-rwjblue-release-it-setup" ["--no-install"]
      [ ("cwd", VStr "/tmp/x"); ("preferLocal", VBool true);
        ("localDir", VStr "/blueprint") ] ].
Proof. reflexivity. Qed.

(** A task that fails does not keep the later ones from starting: with
    no CI file to delete, the run fails and the manifest is patched all
    the same. *)
Example demo_run_first_rejection :
  let w := {| files := unlink_file "/tmp/x/test-app/.travis.yml" Demo.generated;
              trace := []; faults := fun _ => None;
              external := fun _ f => f; settles := fun _ => 0 |} in
  fst (Demo.run Demo.options w) = Err (EnvError "ENOENT")
  /\ files (snd (Demo.run Demo.options w)) "/tmp/x/test-app/package.json"
     = Some "name,devDependencies,scripts".
Proof. split; reflexivity. Qed.

Example pathFromAddonToRoot_nested :
  pathFromAddonToRoot (VStr "packages/my-addon") = Ok "../..".
Proof. reflexivity. Qed.

(** lodash's merge on a manifest: objects merge key by key, the
    fragment's strings win, new keys go last. *)
Example merge_demo :
  merge [ ("name", JStr "test-app");
          ("scripts", JObj [("test", JStr "old"); ("start", JStr "ember s")]) ]
        [ ("scripts", JObj [("test", JStr "ember test")]);
          ("private", JBool true) ] =
  [ ("name", JStr "test-app");
    ("scripts", JObj [("test", JStr "ember test"); ("start", JStr "ember s")]);
    ("private", JBool true) ].
Proof. reflexivity. Qed.

(** * Further properties of the blueprint *)

(** ** [withoutAddonOptions] *)

Lemma has_key_app (V : Type) k (a b : object V) :
  has_key k (a ++ b)%list = has_key k a || has_key k b.
Proof.
  induction a as [|[k' v'] rest IH]; [reflexivity|].
  change (((k', v') :: rest) ++ b)%list with ((k', v') :: (rest ++ b)%list).
  rewrite !has_key_cons, IH. now rewrite orb_assoc.
Qed.

(** A key that is not there yet goes last. *)
Lemma obj_set_fresh (V : Type) k (v : V) (o : object V) :
  has_key k o = false -> obj_set k v o = (o ++ [(k, v)])%list.
Proof.
  induction o as [|[k' v'] rest IH]; intros H; [reflexivity|].
  rewrite has_key_cons in H. apply orb_false_elim in H as [E H].
  simpl. rewrite E. now rewrite (IH H).
Qed.

Lemma filtered_assign_is_filter (options acc : object value) :
  unique_keys options = true ->
  (forall k, has_key k options = true -> has_key k acc = false) ->
  fold_left
    (fun result entry =>
       let '(key, v) := entry in
       if includes ADDON_OPTIONS key then result else obj_set key v result)
    options acc =
  (acc ++ filter kept_entry options)%list.
Proof.
  revert acc. induction options as [|[k v] rest IH]; intros acc Hu Hfresh.
  - simpl. now rewrite app_nil_r.
  - simpl in Hu. apply andb_true_iff in Hu as [Hk Hu].
    apply negb_true_iff in Hk.
    cbn [fold_left filter]. unfold kept_entry at 1. cbn [fst].
    assert (Hacc : has_key k acc = false).
    { apply Hfresh. rewrite has_key_cons, String.eqb_refl. reflexivity. }
    destruct (includes ADDON_OPTIONS k) eqn:Ek; cbn [negb].
    + apply IH; [assumption|]. intros k0 H0. apply Hfresh.
      rewrite has_key_cons, H0. apply orb_true_r.
    + rewrite obj_set_fresh by assumption. rewrite IH; [|assumption|].
      * now rewrite <- app_assoc.
      * intros k0 H0. rewrite has_key_app, has_key_cons.
        assert (Hne : String.eqb k0 k = false).
        { destruct (String.eqb k0 k) eqn:E; [|reflexivity].
          apply String.eqb_eq in E; subst k0. congruence. }
        rewrite Hne. cbn [orb has_key obj_get].
        rewrite (Hfresh k0); [reflexivity|].
        rewrite has_key_cons, H0. apply orb_true_r.
Qed.

Lemma has_key_filter (V : Type) (f : string * V -> bool) k (o : object V) :
  has_key k o = false -> has_key k (filter f o) = false.
Proof.
  induction o as [|[k' v'] rest IH]; [reflexivity|].
  rewrite has_key_cons. intros H. apply orb_false_elim in H as [E H].
  simpl. destruct (f (k', v')); [rewrite has_key_cons, E|]; now apply IH.
Qed.

Lemma unique_keys_filter (V : Type) (f : string * V -> bool) (o : object V) :
  unique_keys o = true -> unique_keys (filter f o) = true.
Proof.
  induction o as [|[k v] rest IH]; [reflexivity|].
  simpl. intros H. apply andb_true_iff in H as [Hk Hu].
  apply negb_true_iff in Hk.
  destruct (f (k, v)); [|now apply IH].
  simpl. rewrite has_key_filter by assumption. now rewrite IH.
Qed.

(** X1.  On an object, [withoutAddonOptions] is a filter: it drops the
    entries of the four addon options and keeps every other entry, with
    its value and in its place. *)
Theorem withoutAddonOptions_is_filter (options : object value) :
  unique_keys options = true ->
  withoutAddonOptions options = filter kept_entry options.
Proof.
  intros Hu. unfold withoutAddonOptions.
  rewrite filtered_assign_is_filter; [reflexivity|assumption|reflexivity].
Qed.

Lemma withoutAddonOptions_is_filter_witness :
  withoutAddonOptions
    [ ("entity", VObj [("name", VStr "my-addon")]);
      ("testAppName", VStr "demo");
      ("yarn", VBool true);
      ("releaseIt", VBool true);
      ("target", VStr "/tmp/x") ] =
  [ ("entity", VObj [("name", VStr "my-addon")]);
    ("yarn", VBool true);
    ("target", VStr "/tmp/x") ].
Proof.
  rewrite (@withoutAddonOptions_is_filter
             [ ("entity", VObj [("name", VStr "my-addon")]);
               ("testAppName", VStr "demo");
               ("yarn", VBool true);
               ("releaseIt", VBool true);
               ("target", VStr "/tmp/x") ] eq_refl).
  reflexivity.
Defined.

Lemma filter_kept_twice (o : object value) :
  filter kept_entry (filter kept_entry o) = filter kept_entry o.
Proof.
  induction o as [|e rest IH]; [reflexivity|].
  simpl. destruct (kept_entry e) eqn:E; [|assumption].
  simpl. now rewrite E, IH.
Qed.

(** X2.  Stripping the addon options from an object gives an object
    again (each key once), and stripping twice is stripping once. *)
Theorem withoutAddonOptions_idempotent (options : object value) :
  unique_keys options = true ->
  unique_keys (withoutAddonOptions options) = true
  /\ withoutAddonOptions (withoutAddonOptions options) =
     withoutAddonOptions options.
Proof.
  intros Hu.
  assert (Hf : withoutAddonOptions options = filter kept_entry options).
  { unfold withoutAddonOptions.
    rewrite filtered_assign_is_filter; [reflexivity|assumption|reflexivity]. }
  assert (Hu' : unique_keys (filter kept_entry options) = true)
    by now apply unique_keys_filter.
  rewrite Hf. split; [assumption|].
  unfold withoutAddonOptions.
  rewrite filtered_assign_is_filter; [|assumption|reflexivity].
  apply filter_kept_twice.
Qed.

Lemma withoutAddonOptions_idempotent_witness :
  unique_keys (withoutAddonOptions Demo.options) = true
  /\ withoutAddonOptions (withoutAddonOptions Demo.options) =
     withoutAddonOptions Demo.options.
Proof. apply (@withoutAddonOptions_idempotent Demo.options). reflexivity. Defined.

(** ** [locals] *)

Lemma split_slash_count_climb n :
  split_slash_count (join "/" (repeat ".." (S n))) = S n.
Proof.
  induction n as [|n IH]; [reflexivity|].
  change (repeat ".." (S (S n))) with (".." :: repeat ".." (S n)).
  change (join "/" (".." :: repeat ".." (S n)))
    with (".." ++ "/" ++ join "/" (repeat ".." (S n))).
  simpl split_slash_count. simpl in IH. now rewrite IH.
Qed.






Lemma js_or_string_default (v : value) (d : string) :
  if falsy_or_string v
  then exists s, js_or v (VStr d) = VStr s
  else is_string (js_or v (VStr d)) = false.
Proof.
  unfold falsy_or_string, js_or.
  destruct (truthy v) eqn:Ht; simpl; [|eauto].
  destruct v; simpl; eauto.
Qed.

Lemma addonInfoFromOptions_domain dasherize classify (options : object value) :
  if entity_name_is_string options
  then exists info, addonInfoFromOptions dasherize classify options = Ok info
  else addonInfoFromOptions dasherize classify options = Err TypeError.
Proof.
  unfold entity_name_is_string, addonInfoFromOptions.
  destruct (prop "entity" options) as [| | b | n | s | entity]; try reflexivity.
  simpl. destruct (prop "name" entity); simpl; eauto.
Qed.

(** Where [locals] returns and where it throws. *)
Lemma locals_domain
  (dasherize classify : string -> string) (version : value) (year : Z)
  (options : object value) :
  if entity_name_is_string options
     && falsy_or_string (prop "addonLocation" options)
     && falsy_or_string (prop "testAppName" options)
  then exists l, locals dasherize classify version year options = Ok l
  else locals dasherize classify version year options = Err TypeError.
Proof.
  unfold locals.
  pose proof (addonInfoFromOptions_domain dasherize classify options) as Ha.
  destruct (entity_name_is_string options); cbn [andb];
    [destruct Ha as [info Ha]|now rewrite Ha].
  rewrite Ha. cbn [rbind].
  destruct (addonInfoFromOptions_location _ _ _ Ha) as [Hloc _].
  pose proof (js_or_string_default (prop "addonLocation" options)
                (an_dashed (ai_name info))) as Hl.
  pose proof (js_or_string_default (prop "testAppName" options) "test-app") as Hn.
  unfold testAppInfoFromOptions.
  destruct (falsy_or_string (prop "testAppName" options)); cbn [andb].
  - destruct Hn as [name ->]. cbn [on_string rbind].
    destruct (falsy_or_string (prop "addonLocation" options)); cbn [andb].
    + destruct Hl as [s Hs]. rewrite Hloc, Hs. cbn. eauto.
    + rewrite Hloc.
      destruct (js_or (prop "addonLocation" options)
                      (VStr (an_dashed (ai_name info))));
        try reflexivity; discriminate.
  - rewrite andb_false_r.
    destruct (js_or (prop "testAppName" options) (VStr "test-app"));
      try reflexivity; discriminate.
Qed.

(** X4.  On an option set whose testAppName is falsy or a string,
    [locals] returns exactly when the entity is an object with a string
    name and addonLocation is falsy or a string, and throws a TypeError
    otherwise.  The testAppLocation does not matter to it. *)
Theorem locals_returns_exactly_when_well_typed
  (dasherize classify : string -> string) (version : value) (year : Z)
  (options : object value) :
  falsy_or_string (prop "testAppName" options) = true ->
  if entity_name_is_string options
     && falsy_or_string (prop "addonLocation" options)
  then exists l, locals dasherize classify version year options = Ok l
  else locals dasherize classify version year options = Err TypeError.
Proof.
  intros Hn.
  pose proof (locals_domain dasherize classify version year options) as H.
  rewrite Hn, andb_true_r in H. exact H.
Qed.

Lemma locals_returns_exactly_when_well_typed_witness :
  (exists l,
      locals (fun s => s) (fun s => s) VUndefined 2026
        [("entity", VObj [("name", VStr "my-addon")]);
         ("addonLocation", VStr "packages/my-addon")] = Ok l)
  /\ locals (fun s => s) (fun s => s) VUndefined 2026
       [("entity", VObj [("name", VStr "my-addon")]);
        ("addonLocation", VNum 5)] = Err TypeError.
Proof.
  split.
  - apply (@locals_returns_exactly_when_well_typed
             (fun s => s) (fun s => s) VUndefined 2026
             [("entity", VObj [("name", VStr "my-addon")]);
              ("addonLocation", VStr "packages/my-addon")] eq_refl).
  - apply (@locals_returns_exactly_when_well_typed
             (fun s => s) (fun s => s) VUndefined 2026
             [("entity", VObj [("name", VStr "my-addon")]);
              ("addonLocation", VNum 5)] eq_refl).
Defined.

Lemma locals_components dasherize classify version year options l :
  locals dasherize classify version year options = Ok l ->
  addonInfoFromOptions dasherize classify options = Ok (l_addonInfo l)
  /\ testAppInfoFromOptions dasherize options = Ok (l_testAppInfo l).
Proof.
  unfold locals.
  destruct (addonInfoFromOptions dasherize classify options); simpl;
    [|discriminate].
  destruct (testAppInfoFromOptions dasherize options); simpl; [|discriminate].
  destruct (pathFromAddonToRoot _); simpl; [|discriminate].
  intros H; inversion H; subst; simpl. auto.
Qed.

(** ** [afterInstall] *)

Lemma testAppInfoFromOptions_domain dasherize (options : object value) :
  if falsy_or_string (prop "testAppName" options)
  then exists info, testAppInfoFromOptions dasherize options = Ok info
  else testAppInfoFromOptions dasherize options = Err TypeError.
Proof.
  unfold testAppInfoFromOptions.
  pose proof (js_or_string_default (prop "testAppName" options) "test-app") as H.
  destruct (falsy_or_string (prop "testAppName" options)).
  - destruct H as [s ->]. simpl. eauto.
  - destruct (js_or (prop "testAppName" options) (VStr "test-app"));
      try reflexivity; discriminate.
Qed.

Section AfterInstallFacts.
Variables dasherize classify : string -> string.
Variable blueprintVersion : value.
Variable year : Z.
Variable path_join : string -> string -> string.
Variable dirname : string.
Variable additions : object json.
Variable parse_manifest : string -> option (object json).
Variable sortPackageJson : json -> json.
Variable stringify : json -> string.
Variable this : blueprint.

Let run := afterInstall dasherize classify blueprintVersion year path_join
             dirname additions parse_manifest sortPackageJson stringify this.

Let tasks := install_tasks dasherize classify blueprintVersion year path_join
               dirname additions parse_manifest sortPackageJson stringify this.

(** Past its checks, [afterInstall] is the nested generator followed by
    the tasks. *)
Lemma afterInstall_past_checks (options : object value) info target location :
  this_app_blueprint this = true ->
  testAppInfoFromOptions dasherize options = Ok info ->
  prop "target" options = VStr target ->
  ti_location info = VStr location ->
  forall w,
    run options w =
    bind (app_install
            (appOptionsFor options (path_join target location)
                           (tn_raw (ti_name info))))
         (fun _ => promise_all
                     (tasks options target location (path_join target location)))
         w.
Proof.
  intros Hb Hi Ht Hl w. unfold run, afterInstall.
  rewrite Hb, Hi. cbn [negb]. unfold bind at 1, lift. now rewrite Ht, Hl.
Qed.

Lemma reaches_install_true (options : object value) :
  reaches_install this options = true ->
  exists info target location,
    this_app_blueprint this = true
    /\ testAppInfoFromOptions dasherize options = Ok info
    /\ prop "target" options = VStr target
    /\ ti_location info = VStr location.
Proof.
  unfold reaches_install. intros H.
  apply andb_true_iff in H as [H Hloc]. apply andb_true_iff in H as [H Ht].
  apply andb_true_iff in H as [Hb Hn].
  pose proof (testAppInfoFromOptions_domain dasherize options) as Hi.
  rewrite Hn in Hi. destruct Hi as [info Hi].
  destruct (prop "target" options) as [| | | |target|] eqn:Et; try discriminate.
  destruct (testAppInfoFromOptions_shape _ _ Hi) as (_ & _ & Hl).
  pose proof (js_or_string_default (prop "testAppLocation" options)
                (tn_dashed (ti_name info))) as Hs.
  rewrite Hloc in Hs. destruct Hs as [location Hs].
  exists info, target, location. rewrite Hl, Hs. auto.
Qed.

Lemma reaches_install_false (options : object value) w :
  reaches_install this options = false ->
  run options w =
  (Err (if this_app_blueprint this then TypeError
        else SilentError "Cannot find app blueprint for generating test-app!"),
   w).
Proof.
  unfold reaches_install, run, afterInstall. intros H.
  destruct (this_app_blueprint this); [|reflexivity]. cbn [negb andb] in *.
  pose proof (testAppInfoFromOptions_domain dasherize options) as Hi.
  destruct (falsy_or_string (prop "testAppName" options));
    [|now rewrite Hi]. cbn [andb] in H.
  destruct Hi as [info Hi]. rewrite Hi. unfold bind, lift.
  destruct (prop "target" options) as [| | | |target|] eqn:Et; try reflexivity.
  cbn [is_string andb] in H.
  destruct (testAppInfoFromOptions_shape _ _ Hi) as (_ & _ & Hl).
  pose proof (js_or_string_default (prop "testAppLocation" options)
                (tn_dashed (ti_name info))) as Hs.
  rewrite H, <- Hl in Hs.
  destruct (ti_location info); try reflexivity; discriminate.
Qed.

Lemma app_install_starts appOptions : starts_with (Install appOptions) (app_install appOptions).
Proof.
  intros w r w' H. unfold app_install, perform in H.
  destruct (faults w (Install appOptions)); inversion H; subst;
    exists []; reflexivity.
Qed.

Lemma starts_with_bind A B c (m : M A) (f : A -> M B) :
  starts_with c m -> (forall a, emits (fun _ => True) (f a)) ->
  starts_with c (bind m f).
Proof.
  intros Hm Hf w r w' H. unfold bind in H.
  destruct (m w) as [[a|e] w1] eqn:E.
  - destruct (Hm _ _ _ E) as [more T1].
    destruct (Hf a _ _ _ H) as [n2 [T2 _]].
    exists (more ++ n2)%list. rewrite T2, T1, <- app_assoc. reflexivity.
  - inversion H; subst. eauto.
Qed.

Lemma install_tasks_append_only options target location testAppPath :
  emits (fun _ => True)
        (promise_all (tasks options target location testAppPath)).
Proof.
  apply emits_promise_all. unfold tasks, install_tasks.
  repeat apply Forall_cons.
  - apply emits_once. apply emits_updateTestAppPackageJson; auto.
  - apply emits_overrideTestAppFiles_task; auto.
  - apply emits_once. apply emits_fs_unlink; auto.
  - apply Forall_app. split.
    + destruct (truthy (prop "vitest" options)); constructor; [|constructor].
      apply emits_once. apply emits_execa; auto.
    + destruct (truthy (prop "releaseIt" options)); constructor;
        [|constructor]. apply emits_once. apply emits_execa; auto.
Qed.

(** X5.  On an option set whose testAppName is falsy or a string,
    [afterInstall] makes a call exactly when the app blueprint is found,
    target is a string and testAppLocation is falsy or a string, and its
    first call is then the nested generator; otherwise it throws, a
    SilentError for the missing blueprint and a TypeError for the types,
    having done nothing. *)
Theorem afterInstall_first_call_or_nothing (options : object value) (w : world) :
  falsy_or_string (prop "testAppName" options) = true ->
  if this_app_blueprint this
     && is_string (prop "target" options)
     && falsy_or_string (prop "testAppLocation" options)
  then exists appOptions more,
      trace (snd (run options w)) = (trace w ++ Install appOptions :: more)%list
  else run options w =
       (Err (if this_app_blueprint this then TypeError
             else SilentError "Cannot find app blueprint for generating test-app!"),
        w).
Proof.
  intros Hname.
  assert (Hreach : reaches_install this options =
                   this_app_blueprint this
                   && is_string (prop "target" options)
                   && falsy_or_string (prop "testAppLocation" options)).
  { unfold reaches_install. rewrite Hname. now rewrite andb_true_r. }
  rewrite <- Hreach.
  destruct (reaches_install this options) eqn:E.
  - destruct (reaches_install_true _ E) as (info & target & location & Hb & Hi & Ht & Hl).
    rewrite (afterInstall_past_checks _ Hb Hi Ht Hl).
    match goal with
    | |- context [bind ?m ?f w] =>
        destruct (@starts_with_bind _ _ _ m f (app_install_starts _)
                    (fun _ => install_tasks_append_only _ _ _ _)
                    w _ _ (surjective_pairing (bind m f w))) as [more Hm]
    end.
    eexists. exists more. exact Hm.
  - now apply reaches_install_false.
Qed.
End AfterInstallFacts.

(** *** Runs in which everything succeeds *)

Lemma perform_ok c effect w w' :
  perform c effect w = (Ok tt, w') -> trace w' = (trace w ++ [c])%list.
Proof.
  unfold perform. destruct (faults w c); intros H; inversion H; subst.
  reflexivity.
Qed.

Lemma fs_unlink_ok path w w' :
  fs_unlink path w = (Ok tt, w') -> trace w' = (trace w ++ [Unlink path])%list.
Proof.
  unfold fs_unlink. destruct (files w path) eqn:E; [|discriminate].
  apply perform_ok.
Qed.

Lemma execa_ok file args options w w' :
  execa file args options w = (Ok tt, w') ->
  trace w' = (trace w ++ [Execa file args options])%list.
Proof. unfold execa. apply perform_ok. Qed.

Lemma run_each_cons_ok (m : M unit) (rest : list (M unit)) w w' :
  run_each (m :: rest) w = (Ok tt, w') ->
  exists w1, m w = (Ok tt, w1) /\ run_each rest w1 = (Ok tt, w').
Proof.
  simpl. unfold bind. destruct (m w) as [[[]|e] w1]; [|discriminate].
  intros H. now exists w1.
Qed.

Lemma run_each_app_ok (a b : list (M unit)) w w1 w2 :
  run_each a w = (Ok tt, w1) -> run_each b w1 = (Ok tt, w2) ->
  run_each (a ++ b)%list w = (Ok tt, w2).
Proof.
  revert w. induction a as [|m rest IH]; intros w Ha Hb.
  - simpl in Ha. inversion Ha; subst. exact Hb.
  - apply run_each_cons_ok in Ha as (w0 & Hm & Hrest).
    change ((m :: rest) ++ b)%list with (m :: (rest ++ b)%list).
    simpl. unfold bind. rewrite Hm. now apply IH.
Qed.

Lemma start_all_resumes (tasks : list task) w started w1 :
  start_all tasks w = (started, w1) -> map snd started = map resume tasks.
Proof.
  revert w started. induction tasks as [|t rest IH]; intros w started H;
    simpl in H.
  - now inversion H.
  - destruct (start t w) as [r w0]. destruct (start_all rest w0) as [s' w2] eqn:E.
    inversion H; subst. simpl. now rewrite (IH _ _ E).
Qed.

Lemma start_all_ok (tasks : list task) w started w1 :
  start_all tasks w = (started, w1) ->
  Forall (fun sk => fst sk = Ok tt) started ->
  run_each (map start tasks) w = (Ok tt, w1).
Proof.
  revert w started. induction tasks as [|t rest IH]; intros w started H Hok;
    simpl in H.
  - now inversion H.
  - destruct (start t w) as [r w0] eqn:Es.
    destruct (start_all rest w0) as [s' w2] eqn:E.
    inversion H; subst. inversion Hok; subst. simpl in *. subst r.
    unfold bind. rewrite Es. now apply (IH _ _ E).
Qed.

Lemma resume_all_ok (started : list (result unit * M unit)) w rs w' :
  resume_all started w = (rs, w') ->
  rejections rs = [] ->
  Forall (fun sk => fst sk = Ok tt) started
  /\ run_each (map snd started) w = (Ok tt, w').
Proof.
  revert w rs. induction started as [|[[[]|e] k] rest IH]; intros w rs H Hrs;
    simpl in H.
  - inversion H; subst. split; [constructor|reflexivity].
  - destruct (k w) as [r w1] eqn:Ek.
    destruct (resume_all rest w1) as [rs' w2] eqn:E.
    inversion H; subst.
    destruct r as [[]|e]; simpl in Hrs; [|discriminate].
    destruct (IH _ _ E Hrs) as [Hok Hrun].
    split; [constructor; [reflexivity|assumption]|].
    simpl. unfold bind. now rewrite Ek.
  - destruct (resume_all rest w) as [rs' w2].
    inversion H; subst. simpl in Hrs. discriminate.
Qed.

(** [Promise.all] resolves only if every task started and ran on without
    a failure: the starts in order, then what follows them. *)
Lemma promise_all_ok (tasks : list task) w w' :
  promise_all tasks w = (Ok tt, w') ->
  run_each (map start tasks ++ map resume tasks)%list w = (Ok tt, w').
Proof.
  unfold promise_all.
  destruct (start_all tasks w) as [started w1] eqn:E1.
  destruct (resume_all started w1) as [rs w2] eqn:E2.
  intros H. inversion H; subst.
  assert (Hrs : rejections rs = []).
  { unfold first_rejection in H1. destruct (rejections rs); [reflexivity|].
    discriminate. }
  destruct (@resume_all_ok _ _ _ _ E2 Hrs) as [Hok Hrun].
  rewrite (@start_all_resumes _ _ _ _ E1) in Hrun.
  rewrite H1.
  exact (@run_each_app_ok _ _ _ _ _ (@start_all_ok _ _ _ _ E1 Hok) Hrun).
Qed.

Lemma start_all_starts (cs : list call) (ts : list task) :
  Forall2 (fun c t => starts_with c (start t)) cs ts ->
  forall w started w',
    start_all ts w = (started, w') ->
    exists new, trace w' = (trace w ++ new)%list /\ incl cs new.
Proof.
  induction 1 as [|c t cs ts Hc _ IH]; intros w started w' H; simpl in H.
  - inversion H; subst. exists []. split; [now rewrite app_nil_r|].
    intros x [].
  - destruct (start t w) as [r w1] eqn:E1.
    destruct (start_all ts w1) as [started' w2] eqn:E2.
    inversion H; subst.
    destruct (Hc _ _ _ E1) as [more T1].
    destruct (IH _ _ _ E2) as [n2 [T2 I2]].
    exists (c :: more ++ n2)%list. split.
    + rewrite T2, T1, <- app_assoc. reflexivity.
    + intros x [->|Hx]; [now left|].
      right. apply in_or_app. right. now apply I2.
Qed.

Lemma perform_starts c effect : starts_with c (perform c effect).
Proof.
  intros w r w' H. unfold perform in H.
  destruct (faults w c); inversion H; subst; exists []; reflexivity.
Qed.

Lemma fs_unlink_starts path : starts_with (Unlink path) (fs_unlink path).
Proof.
  intros w r w' H. unfold fs_unlink in H.
  destruct (files w path); [now apply perform_starts in H|].
  inversion H; subst. exists []. reflexivity.
Qed.

Lemma execa_starts file args options :
  starts_with (Execa file args options) (execa file args options).
Proof. intros w r w' H. unfold execa in H. eapply perform_starts; eassumption. Qed.

Section AfterInstallOutcomes.
Variables dasherize classify : string -> string.
Variable blueprintVersion : value.
Variable year : Z.
Variable path_join : string -> string -> string.
Variable dirname : string.
Variable additions : object json.
Variable parse_manifest : string -> option (object json).
Variable sortPackageJson : json -> json.
Variable stringify : json -> string.
Variable this : blueprint.

Let run := afterInstall dasherize classify blueprintVersion year path_join
             dirname additions parse_manifest sortPackageJson stringify this.

Let tasks := install_tasks dasherize classify blueprintVersion year path_join
               dirname additions parse_manifest sortPackageJson stringify this.

Let patch := updateTestAppPackageJson dasherize classify blueprintVersion year
               additions parse_manifest sortPackageJson stringify this.

Let release_call (target : string) : call :=
  Execa "create-rwjblue-release-it-setup" ["--no-install"]
        [("cwd", VStr target); ("preferLocal", VBool true);
         ("localDir", VStr dirname)].

Let vitest_call (target : string) : call :=
  Execa "ember" vitest_args [("cwd", VStr target)].

Lemma patch_starts path : starts_with (Require path) (patch path).
Proof.
  unfold patch, updateTestAppPackageJson.
  apply starts_with_bind.
  - intros w r w' H. unfold require_manifest in H. exists [].
    destruct (faults w (Require path)); [now inversion H|].
    destruct (files w path) as [text|]; [|now inversion H].
    destruct (parse_manifest text); now inversion H.
  - intros pkg.
    apply emits_bind; [apply emits_lift|intros l].
    apply emits_bind; [apply emits_lift|intros pkg'].
    now apply emits_perform.
Qed.

Lemma patch_ok path w w' :
  patch path w = (Ok tt, w') ->
  exists content,
    trace w' = (trace w ++ [Require path; WriteFile path content])%list.
Proof.
  unfold patch, updateTestAppPackageJson, bind, require_manifest, lift.
  destruct (faults w (Require path)); [discriminate|].
  destruct (files w path) as [text|]; [|discriminate].
  destruct (parse_manifest text) as [pkg|]; [|discriminate].
  destruct (locals _ _ _ _ _) as [l|]; [|discriminate].
  destruct (set_dev_dependency _ _ _) as [pkg'|]; [|discriminate].
  intros H. apply perform_ok in H. eexists. rewrite H. cbn.
  now rewrite <- app_assoc.
Qed.

Lemma tasks_append_only options target location testAppPath :
  emits (fun _ => True)
        (promise_all (tasks options target location testAppPath)).
Proof. apply install_tasks_append_only. Qed.

Lemma run_past_checks (options : object value) info target location :
  this_app_blueprint this = true ->
  testAppInfoFromOptions dasherize options = Ok info ->
  prop "target" options = VStr target ->
  ti_location info = VStr location ->
  forall w,
    run options w =
    bind (app_install
            (appOptionsFor options (path_join target location)
                           (tn_raw (ti_name info))))
         (fun _ => promise_all
                     (tasks options target location (path_join target location)))
         w.
Proof. intros. now apply afterInstall_past_checks. Qed.

(** X6.  When the nested generator fails, [afterInstall] ends with that
    error and the generator is the only call made: no task is started. *)
Theorem afterInstall_stops_when_install_fails
  (options : object value) (info : TestAppInfo) (target location code : string)
  (w : world) :
  this_app_blueprint this = true ->
  testAppInfoFromOptions dasherize options = Ok info ->
  prop "target" options = VStr target ->
  ti_location info = VStr location ->
  faults w (Install (appOptionsFor options (path_join target location)
                                   (tn_raw (ti_name info)))) = Some code ->
  fst (run options w) = Err (EnvError code)
  /\ trace (snd (run options w)) =
     (trace w ++ [Install (appOptionsFor options (path_join target location)
                                         (tn_raw (ti_name info)))])%list.
Proof.
  intros Hb Hi Ht Hl Hf. rewrite (run_past_checks _ Hb Hi Ht Hl).
  unfold bind, app_install, perform. rewrite Hf. cbn. auto.
Qed.

(** X7.  Once the nested generator has succeeded, every task is started,
    whether or not another task fails: the manifest is read, the copy of
    the overrides and the deletion of the CI file are called, and so is
    each command whose option is truthy. *)
Theorem afterInstall_starts_every_task
  (options : object value) (info : TestAppInfo) (target location : string)
  (w : world) :
  let testAppPath := path_join target location in
  this_app_blueprint this = true ->
  testAppInfoFromOptions dasherize options = Ok info ->
  prop "target" options = VStr target ->
  ti_location info = VStr location ->
  faults w (Install (appOptionsFor options testAppPath
                                   (tn_raw (ti_name info)))) = None ->
  exists new,
    trace (snd (run options w)) = (trace w ++ new)%list
    /\ In (Require (path_join testAppPath "package.json")) new
    /\ In (Copy (path_join target "test-app-overrides") location true) new
    /\ In (Unlink (path_join testAppPath ".travis.yml")) new
    /\ (truthy (prop "vitest" options) = true -> In (vitest_call target) new)
    /\ (truthy (prop "releaseIt" options) = true ->
        In (release_call target) new).
Proof.
  intros testAppPath Hb Hi Ht Hl Hf. rewrite (run_past_checks _ Hb Hi Ht Hl).
  fold testAppPath. unfold bind, app_install, perform. rewrite Hf.
  unfold promise_all.
  match goal with
  | |- context [start_all ?ts ?w1] =>
      destruct (start_all ts w1) as [started w2] eqn:E
  end.
  destruct (resume_all started w2) as [rs w3] eqn:E3.
  assert (Hstarts :
    Forall2 (fun c t => starts_with c (start t))
      ([ Require (path_join testAppPath "package.json");
         Copy (path_join target "test-app-overrides") location true;
         Unlink (path_join testAppPath ".travis.yml") ]
       ++ (if truthy (prop "vitest" options) then [vitest_call target] else [])
       ++ (if truthy (prop "releaseIt" options)
           then [release_call target] else []))%list
      (tasks options target location testAppPath)).
  { unfold tasks, install_tasks.
    repeat apply Forall2_cons.
    - apply patch_starts.
    - apply perform_starts.
    - apply fs_unlink_starts.
    - apply Forall2_app.
      + destruct (truthy (prop "vitest" options)); constructor;
          [|constructor]. apply execa_starts.
      + destruct (truthy (prop "releaseIt" options)); constructor;
          [|constructor]. unfold setupReleaseIt. apply execa_starts. }
  assert (Hall :
    Forall (fun t => emits (fun _ => True) (start t)
                     /\ emits (fun _ => True) (resume t))
           (tasks options target location testAppPath)).
  { unfold tasks, install_tasks.
    repeat apply Forall_cons.
    - apply emits_once. apply emits_updateTestAppPackageJson; auto.
    - apply emits_overrideTestAppFiles_task; auto.
    - apply emits_once. apply emits_fs_unlink; auto.
    - apply Forall_app. split.
      + destruct (truthy (prop "vitest" options)); constructor; [|constructor].
        apply emits_once. apply emits_execa; auto.
      + destruct (truthy (prop "releaseIt" options)); constructor;
          [|constructor]. apply emits_once. apply emits_execa; auto. }
  destruct (start_all_starts Hstarts _ E) as [new [T I]].
  destruct (emits_start_all Hall _ E) as [Hk _].
  destruct (emits_resume_all Hk _ E3) as [later [T3 _]].
  exists ((Install (appOptionsFor options testAppPath (tn_raw (ti_name info)))
             :: new) ++ later)%list.
  cbn [snd]. rewrite T3, T. cbn. rewrite <- !app_assoc. split; [reflexivity|].
  assert (Hin : forall c, In c new ->
            In c (Install (appOptionsFor options testAppPath
                                         (tn_raw (ti_name info)))
                    :: (new ++ later)%list)).
  { intros c Hc. right. apply in_or_app. now left. }
  repeat split.
  - apply Hin, I. simpl. auto.
  - apply Hin, I. simpl. auto.
  - apply Hin, I. simpl. auto.
  - intros Hv. apply Hin, I. rewrite Hv. simpl. auto.
  - intros Hr. apply Hin, I. rewrite Hr.
    simpl. do 3 right. apply in_or_app. right. now left.
Qed.

(** X8.  Whatever happens, [afterInstall] calls nothing but: the nested
    generator, the read and the write of the test-app's package.json, the
    copy of the overrides directory onto the test-app location, the
    removal of the overrides directory, the deletion of the test-app's CI
    file, and the two commands when their options are truthy. *)
Theorem afterInstall_footprint
  (options : object value) (info : TestAppInfo) (target location : string)
  (w : world) :
  this_app_blueprint this = true ->
  testAppInfoFromOptions dasherize options = Ok info ->
  prop "target" options = VStr target ->
  ti_location info = VStr location ->
  exists new,
    trace (snd (run options w)) = (trace w ++ new)%list
    /\ Forall (in_footprint path_join dirname options info target location) new.
Proof.
  intros Hb Hi Ht Hl. rewrite (run_past_checks _ Hb Hi Ht Hl).
  match goal with
  | |- context [bind ?m ?f w] =>
      assert (E : emits (in_footprint path_join dirname options info
                                      target location) (bind m f));
        [|exact (E w _ _ (surjective_pairing (bind m f w)))]
  end.
  apply emits_bind.
  - apply emits_app_install. now left.
  - intros _. apply emits_promise_all. unfold tasks, install_tasks.
    repeat apply Forall_cons.
    + apply emits_once. apply emits_updateTestAppPackageJson.
      * right; now left.
      * intros content. do 2 right; left. now exists content.
    + apply emits_overrideTestAppFiles_task.
      * do 3 right; now left.
      * do 4 right; now left.
    + apply emits_once. apply emits_fs_unlink. do 5 right; now left.
    + apply Forall_app. split.
      * destruct (truthy (prop "vitest" options)) eqn:Ev; constructor;
          [|constructor]. apply emits_once. apply emits_execa.
        do 6 right; left. now split.
      * destruct (truthy (prop "releaseIt" options)) eqn:Er; constructor;
          [|constructor]. apply emits_once. unfold setupReleaseIt.
        apply emits_execa. do 7 right. now split.
Qed.

(** The calls of a run in which everything succeeds, in the order in
    which they are made: the removal of the overrides comes last, when
    the copy has resolved and every task has been started. *)
Let success_calls (options : object value) (info : TestAppInfo)
    (target location content : string) : list call :=
  let testAppPath := path_join target location in
  ([ Install (appOptionsFor options testAppPath (tn_raw (ti_name info)));
     Require (path_join testAppPath "package.json");
     WriteFile (path_join testAppPath "package.json") content;
     Copy (path_join target "test-app-overrides") location true;
     Unlink (path_join testAppPath ".travis.yml") ]
   ++ (if truthy (prop "vitest" options) then [vitest_call target] else [])
   ++ (if truthy (prop "releaseIt" options) then [release_call target] else [])
   ++ [Remove (path_join target "test-app-overrides")])%list.

Lemma ret_ok w w' : @ret unit tt w = (Ok tt, w') -> w' = w.
Proof. unfold ret. now intros H; inversion H. Qed.

(** X9.  A run of [afterInstall] that succeeds made exactly these calls,
    in this order: the nested generator; the read and the write of the
    test-app's package.json; the copy of the overrides; the deletion of
    the CI file; the vitest command and the release command, each if its
    option is truthy; and last the removal of the overrides directory,
    which waits for the copy. *)
Theorem afterInstall_success_trace (options : object value) (w w' : world) :
  run options w = (Ok tt, w') ->
  exists info target location content,
    testAppInfoFromOptions dasherize options = Ok info
    /\ prop "target" options = VStr target
    /\ ti_location info = VStr location
    /\ trace w' =
       (trace w ++ success_calls options info target location content)%list.
Proof.
  intros H.
  destruct (reaches_install this options) eqn:Er.
  2:{ unfold run in H.
      rewrite (reaches_install_false dasherize classify blueprintVersion year
                 path_join dirname additions parse_manifest sortPackageJson
                 stringify _ _ w Er) in H.
      discriminate H. }
  destruct (reaches_install_true dasherize _ _ Er)
    as (info & target & location & Hb & Hi & Ht & Hl).
  exists info, target, location.
  rewrite (run_past_checks _ Hb Hi Ht Hl) in H. unfold bind in H.
  match type of H with
  | context [app_install ?ao w] =>
      destruct (app_install ao w) as [[[]|e] w1] eqn:E1; [|discriminate H]
  end.
  unfold app_install in E1. apply perform_ok in E1.
  apply promise_all_ok in H.
  unfold tasks, install_tasks in H. rewrite !map_app in H.
  cbn [map start resume once overrideTestAppFiles_task app] in H.
  apply run_each_cons_ok in H as (w2 & E2 & H).
  apply run_each_cons_ok in H as (w3 & E3 & H).
  apply run_each_cons_ok in H as (w4 & E4 & H).
  apply patch_ok in E2 as [content E2].
  unfold fs_copy in E3. apply perform_ok in E3.
  apply fs_unlink_ok in E4.
  exists content.
  split; [exact Hi|]. split; [exact Ht|]. split; [exact Hl|].
  unfold success_calls.
  destruct (truthy (prop "vitest" options));
    destruct (truthy (prop "releaseIt" options));
    cbn [map start resume once app] in H |- *.
  - apply run_each_cons_ok in H as (w5 & E5 & H).
    apply run_each_cons_ok in H as (w6 & E6 & H).
    apply run_each_cons_ok in H as (w7 & E7 & H). apply ret_ok in E7.
    apply run_each_cons_ok in H as (w8 & E8 & H).
    apply run_each_cons_ok in H as (w9 & E9 & H). apply ret_ok in E9.
    apply run_each_cons_ok in H as (w10 & E10 & H). apply ret_ok in E10.
    apply run_each_cons_ok in H as (w11 & E11 & H). apply ret_ok in E11.
    apply ret_ok in H. subst.
    apply execa_ok in E5. unfold setupReleaseIt in E6. apply execa_ok in E6.
    unfold fs_remove in E8. apply perform_ok in E8.
    rewrite E8, E6, E5, E4, E3, E2, E1. now rewrite <- !app_assoc.
  - apply run_each_cons_ok in H as (w5 & E5 & H).
    apply run_each_cons_ok in H as (w7 & E7 & H). apply ret_ok in E7.
    apply run_each_cons_ok in H as (w8 & E8 & H).
    apply run_each_cons_ok in H as (w9 & E9 & H). apply ret_ok in E9.
    apply run_each_cons_ok in H as (w10 & E10 & H). apply ret_ok in E10.
    apply ret_ok in H. subst.
    apply execa_ok in E5.
    unfold fs_remove in E8. apply perform_ok in E8.
    rewrite E8, E5, E4, E3, E2, E1. now rewrite <- !app_assoc.
  - apply run_each_cons_ok in H as (w5 & E5 & H).
    apply run_each_cons_ok in H as (w7 & E7 & H). apply ret_ok in E7.
    apply run_each_cons_ok in H as (w8 & E8 & H).
    apply run_each_cons_ok in H as (w9 & E9 & H). apply ret_ok in E9.
    apply run_each_cons_ok in H as (w10 & E10 & H). apply ret_ok in E10.
    apply ret_ok in H. subst.
    unfold setupReleaseIt in E5. apply execa_ok in E5.
    unfold fs_remove in E8. apply perform_ok in E8.
    rewrite E8, E5, E4, E3, E2, E1. now rewrite <- !app_assoc.
  - apply run_each_cons_ok in H as (w7 & E7 & H). apply ret_ok in E7.
    apply run_each_cons_ok in H as (w8 & E8 & H).
    apply run_each_cons_ok in H as (w9 & E9 & H). apply ret_ok in E9.
    apply ret_ok in H. subst.
    unfold fs_remove in E8. apply perform_ok in E8.
    rewrite E8, E4, E3, E2, E1. now rewrite <- !app_assoc.
Qed.

(** X11.  The directory the nested generator is pointed at is the one the
    [__testAppLocation__] file-map token names, under the target: the
    test-app's templates and the generated app land in the same place. *)
Theorem install_location_is_the_token
  (options : object value) (l : Locals) (target location : string) (w : world) :
  locals dasherize classify blueprintVersion year options = Ok l ->
  prop "target" options = VStr target ->
  prop "__testAppLocation__" (fileMapTokens l) = VStr location ->
  exists new,
    trace (snd (run options w)) = (trace w ++ new)%list
    /\ forall appOptions,
        In (Install appOptions) new ->
        prop "target" appOptions = VStr (path_join target location).
Proof.
  intros Hloc Ht Htok.
  destruct (locals_components _ _ _ _ _ Hloc) as [_ Hi].
  change (prop "__testAppLocation__" (fileMapTokens l))
    with (ti_location (l_testAppInfo l)) in Htok.
  destruct (@emits_afterInstall dasherize classify blueprintVersion year
              path_join dirname additions parse_manifest sortPackageJson
              stringify this
              (fun c => forall appOptions, c = Install appOptions ->
                 prop "target" appOptions = VStr (path_join target location))
              options) with (w := w) (r := fst (run options w))
                            (w' := snd (run options w)) as [new [T F]].
  - intros c Hc _ ao ->. discriminate Hc.
  - intros _ t ao E. discriminate E.
  - intros _ t ao E. discriminate E.
  - intros info t loc Hi' Ht' Hl' ao E. inversion E; subst ao.
    rewrite Hi in Hi'. inversion Hi'; subst info.
    rewrite Ht in Ht'. inversion Ht'; subst t.
    rewrite Htok in Hl'. inversion Hl'; subst loc.
    unfold prop. rewrite appOptionsFor_get. reflexivity.
  - apply surjective_pairing.
  - exists new. split; [assumption|].
    intros ao Hin. rewrite Forall_forall in F. exact (F _ Hin _ eq_refl).
Qed.

(** X12.  With no testAppName and no testAppLocation (or falsy ones), the
    nested generator is asked for an app named test-app in
    [path.join(target, dasherize("test-app"))]. *)
Theorem afterInstall_default_test_app
  (options : object value) (target : string) (w : world) :
  this_app_blueprint this = true ->
  prop "target" options = VStr target ->
  truthy (prop "testAppName" options) = false ->
  truthy (prop "testAppLocation" options) = false ->
  exists appOptions more,
    trace (snd (run options w)) = (trace w ++ Install appOptions :: more)%list
    /\ prop "target" appOptions = VStr (path_join target (dasherize "test-app"))
    /\ prop "name" appOptions = VStr "test-app"
    /\ prop "entity" appOptions = VObj [("name", VStr "test-app")].
Proof.
  intros Hb Ht Hn Hl.
  assert (Hi : testAppInfoFromOptions dasherize options =
               Ok {| ti_name := {| tn_dashed := dasherize "test-app";
                                   tn_raw := "test-app" |};
                     ti_location := VStr (dasherize "test-app") |}).
  { unfold testAppInfoFromOptions.
    rewrite (js_or_falsy _ _ Hn). cbn [on_string rbind].
    rewrite (js_or_falsy _ _ Hl). reflexivity. }
  rewrite (run_past_checks _ Hb Hi Ht eq_refl). cbn [tn_raw ti_name].
  match goal with
  | |- context [bind ?m ?f w] =>
      destruct (@starts_with_bind _ _ _ m f (app_install_starts _)
                  (fun _ => tasks_append_only _ _ _ _)
                  w _ _ (surjective_pairing (bind m f w))) as [more Hm]
  end.
  eexists. exists more. split; [exact Hm|].
  unfold prop. rewrite !appOptionsFor_get. repeat split.
Qed.
End AfterInstallOutcomes.

(** ** [updateTestAppPackageJson] and [overrideTestAppFiles] at their edges *)

Lemma locals_error_is_TypeError dasherize classify version year options e :
  locals dasherize classify version year options = Err e -> e = TypeError.
Proof.
  pose proof (locals_domain dasherize classify version year options) as H.
  destruct (entity_name_is_string options
            && falsy_or_string (prop "addonLocation" options)
            && falsy_or_string (prop "testAppName" options)).
  - destruct H as [l ->]. discriminate.
  - rewrite H. now intros E; inversion E.
Qed.

(** X13.  When neither the manifest nor the bundled fragment has a
    devDependencies key, [updateTestAppPackageJson] throws a TypeError
    after reading the manifest: nothing is written and the files are as
    they were. *)
Theorem updateTestAppPackageJson_needs_devDependencies
  (dasherize classify : string -> string) (blueprintVersion : value) (year : Z)
  (additions : object json) (parse_manifest : string -> option (object json))
  (sortPackageJson : json -> json) (stringify : json -> string)
  (this : blueprint) (path text : string) (pkg : object json) (w : world) :
  let run := updateTestAppPackageJson dasherize classify blueprintVersion year
               additions parse_manifest sortPackageJson stringify this path in
  unique_keys additions = true ->
  faults w (Require path) = None ->
  files w path = Some text ->
  parse_manifest text = Some pkg ->
  obj_get "devDependencies" pkg = None ->
  obj_get "devDependencies" additions = None ->
  fst (run w) = Err TypeError
  /\ trace (snd (run w)) = (trace w ++ [Require path])%list
  /\ files (snd (run w)) = files w.
Proof.
  intros run Hu Hf Hfile Hparse Hp Ha.
  unfold run, updateTestAppPackageJson, bind, require_manifest, lift.
  rewrite Hf, Hfile, Hparse.
  destruct (locals dasherize classify blueprintVersion year (this_options this))
    as [l|e] eqn:El.
  - unfold set_dev_dependency. rewrite merge_get by assumption.
    rewrite Ha, Hp. cbn. auto.
  - rewrite (locals_error_is_TypeError _ _ _ _ _ El). cbn. auto.
Qed.

(** X14.  When the copy of the overrides succeeds and the removal of the
    staging directory fails, [overrideTestAppFiles] ends with the
    removal's error and the copy is not undone: as long as the failed
    removal has touched nothing outside the staging directory, every
    staging file is in the destination. *)
Theorem overrideTestAppFiles_no_rollback
  (testAppPath overridesPath code : string) (w : world) :
  let run := overrideTestAppFiles testAppPath overridesPath in
  under overridesPath testAppPath = None ->
  under testAppPath overridesPath = None ->
  faults w (Copy overridesPath testAppPath true) = None ->
  faults w (Remove overridesPath) = Some code ->
  (forall f p, under overridesPath p = None ->
               external w (Remove overridesPath) f p = f p) ->
  fst (run w) = Err (EnvError code)
  /\ forall rel content,
      is_rest rel ->
      files w (overridesPath ++ rel) = Some content ->
      files (snd (run w)) (testAppPath ++ rel) = Some content.
Proof.
  intros run Hsd Hds Hc Hr Hout.
  unfold run, overrideTestAppFiles, bind, fs_copy, fs_remove, perform.
  rewrite Hc. cbn [faults with_files logged]. rewrite Hr. cbn.
  split; [reflexivity|]. intros rel content Hrel Hfile.
  rewrite Hout.
  - unfold copy_files. now rewrite (under_app _ Hrel), Hfile.
  - exact (under_disjoint _ _ _ Hds Hsd (under_app testAppPath Hrel)).
Qed.

(** ** The further properties on the small environment *)

Lemma afterInstall_stops_when_install_fails_witness :
  fst (Demo.run Demo.options demo_install_fails) = Err (EnvError "EEXIST")
  /\ trace (snd (Demo.run Demo.options demo_install_fails)) =
     (trace demo_install_fails
      ++ [Install (appOptionsFor Demo.options
                     (Demo.path_join "/tmp/x" "test-app") "test-app")])%list.
Proof.
  apply (@afterInstall_stops_when_install_fails
           Demo.dasherize Demo.classify VUndefined 2026 Demo.path_join
           Demo.dirname Demo.additions Demo.parse_manifest Demo.sortPackageJson
           Demo.stringify Demo.this Demo.options demo_test_app
           "/tmp/x" "test-app" "EEXIST" demo_install_fails);
    reflexivity.
Defined.

Lemma afterInstall_first_call_or_nothing_witness :
  exists appOptions more,
    trace (snd (Demo.run Demo.options Demo.start)) =
    (trace Demo.start ++ Install appOptions :: more)%list.
Proof.
  apply (@afterInstall_first_call_or_nothing
           Demo.dasherize Demo.classify VUndefined 2026 Demo.path_join
           Demo.dirname Demo.additions Demo.parse_manifest Demo.sortPackageJson
           Demo.stringify Demo.this Demo.options Demo.start eq_refl).
Defined.

Lemma afterInstall_starts_every_task_witness :
  exists new,
    trace (snd (Demo.run Demo.options Demo.copy_fails)) =
    (trace Demo.copy_fails ++ new)%list
    /\ In (Require "/tmp/x/test-app/package.json") new
    /\ In (Copy "/tmp/x/test-app-overrides" "test-app" true) new
    /\ In (Unlink "/tmp/x/test-app/.travis.yml") new.
Proof.
  destruct (@afterInstall_starts_every_task
              Demo.dasherize Demo.classify VUndefined 2026 Demo.path_join
              Demo.dirname Demo.additions Demo.parse_manifest
              Demo.sortPackageJson Demo.stringify Demo.this Demo.options
              demo_test_app "/tmp/x" "test-app" Demo.copy_fails
              eq_refl eq_refl eq_refl eq_refl eq_refl)
    as (new & T & Hr & Hc & Hu & _).
  exists new. auto.
Defined.

Lemma afterInstall_footprint_witness :
  exists new,
    trace (snd (Demo.run Demo.options Demo.copy_fails)) =
    (trace Demo.copy_fails ++ new)%list
    /\ Forall (in_footprint Demo.path_join Demo.dirname Demo.options
                            demo_test_app "/tmp/x" "test-app") new.
Proof.
  apply (@afterInstall_footprint
           Demo.dasherize Demo.classify VUndefined 2026 Demo.path_join
           Demo.dirname Demo.additions Demo.parse_manifest Demo.sortPackageJson
           Demo.stringify Demo.this Demo.options demo_test_app
           "/tmp/x" "test-app" Demo.copy_fails);
    reflexivity.
Defined.

Lemma afterInstall_success_trace_witness :
  exists content,
    trace (snd (Demo.run Demo.options Demo.start)) =
    [ Install (appOptionsFor Demo.options "/tmp/x/test-app" "test-app");
      Require "/tmp/x/test-app/package.json";
      WriteFile "/tmp/x/test-app/package.json" content;
      Copy "/tmp/x/test-app-overrides" "test-app" true;
      Unlink "/tmp/x/test-app/.travis.yml";
      Remove "/tmp/x/test-app-overrides" ].
Proof.
  destruct (@afterInstall_success_trace
              Demo.dasherize Demo.classify VUndefined 2026 Demo.path_join
              Demo.dirname Demo.additions Demo.parse_manifest
              Demo.sortPackageJson Demo.stringify Demo.this Demo.options
              Demo.start (snd (Demo.run Demo.options Demo.start)) eq_refl)
    as (info & target & location & content & Hi & Ht & Hl & T).
  inversion Hi; subst info. inversion Ht; subst target.
  inversion Hl; subst location.
  exists content. exact T.
Defined.

Lemma install_location_is_the_token_witness :
  exists l new,
    locals Demo.dasherize Demo.classify VUndefined 2026 Demo.options = Ok l
    /\ prop "__testAppLocation__" (fileMapTokens l) = VStr "test-app"
    /\ trace (snd (Demo.run Demo.options Demo.start)) =
       (trace Demo.start ++ new)%list
    /\ forall appOptions,
        In (Install appOptions) new ->
        prop "target" appOptions = VStr (Demo.path_join "/tmp/x" "test-app").
Proof.
  eexists.
  destruct (@install_location_is_the_token
              Demo.dasherize Demo.classify VUndefined 2026 Demo.path_join
              Demo.dirname Demo.additions Demo.parse_manifest
              Demo.sortPackageJson Demo.stringify Demo.this Demo.options
              _ "/tmp/x" "test-app" Demo.start eq_refl eq_refl eq_refl)
    as (new & T & H).
  exists new. repeat split; assumption.
Defined.

Lemma afterInstall_default_test_app_witness :
  exists appOptions more,
    trace (snd (Demo.run Demo.options Demo.start)) =
    (trace Demo.start ++ Install appOptions :: more)%list
    /\ prop "target" appOptions = VStr "/tmp/x/test-app"
    /\ prop "name" appOptions = VStr "test-app"
    /\ prop "entity" appOptions = VObj [("name", VStr "test-app")].
Proof.
  apply (@afterInstall_default_test_app
           Demo.dasherize Demo.classify VUndefined 2026 Demo.path_join
           Demo.dirname Demo.additions Demo.parse_manifest Demo.sortPackageJson
           Demo.stringify Demo.this Demo.options "/tmp/x" Demo.start);
    reflexivity.
Defined.

Lemma updateTestAppPackageJson_needs_devDependencies_witness :
  let run :=
    updateTestAppPackageJson Demo.dasherize Demo.classify VUndefined 2026
      demo_bare_additions demo_bare_manifest Demo.sortPackageJson
      Demo.stringify Demo.this "/tmp/x/test-app/package.json" in
  fst (run Demo.start) = Err TypeError
  /\ trace (snd (run Demo.start)) =
     (trace Demo.start ++ [Require "/tmp/x/test-app/package.json"])%list
  /\ files (snd (run Demo.start)) = files Demo.start.
Proof.
  apply (@updateTestAppPackageJson_needs_devDependencies
           Demo.dasherize Demo.classify VUndefined 2026 demo_bare_additions
           demo_bare_manifest Demo.sortPackageJson Demo.stringify Demo.this
           "/tmp/x/test-app/package.json" "test-app manifest"
           [("name", JStr "test-app")] Demo.start);
    reflexivity.
Defined.

Lemma overrideTestAppFiles_no_rollback_witness :
  let run := overrideTestAppFiles "test-app" "/tmp/x/test-app-overrides" in
  fst (run demo_remove_fails) = Err (EnvError "EBUSY")
  /\ files (snd (run demo_remove_fails)) "test-app/ember-cli-build.js"
     = Some "override build".
Proof.
  destruct (@overrideTestAppFiles_no_rollback
              "test-app" "/tmp/x/test-app-overrides" "EBUSY" demo_remove_fails
              eq_refl eq_refl eq_refl eq_refl (fun f p _ => eq_refl))
    as [Hr Hfiles].
  intros run. split; [exact Hr|].
  apply (Hfiles "/ember-cli-build.js" "override build");
    [right; eexists; reflexivity|reflexivity].
Defined.

(** ** The derivers, once more *)

(** X15.  A testAppName that is a non-empty string is the test-app's raw
    name, its dasherized form is the dashed name, and the location is the
    testAppLocation when that is truthy and the dashed name (not the raw
    one) otherwise. *)
Theorem testAppInfoFromOptions_overrides
  (dasherize : string -> string) (options : object value) (name : string) :
  prop "testAppName" options = VStr name ->
  name <> "" ->
  testAppInfoFromOptions dasherize options =
  Ok {| ti_name := {| tn_dashed := dasherize name; tn_raw := name |};
        ti_location :=
          if truthy (prop "testAppLocation" options)
          then prop "testAppLocation" options
          else VStr (dasherize name) |}.
Proof.
  intros Hs Hne.
  assert (Hn : js_or (prop "testAppName" options) (VStr "test-app") = VStr name).
  { rewrite Hs. unfold js_or. simpl.
    apply String.eqb_neq in Hne. now rewrite Hne. }
  unfold testAppInfoFromOptions. rewrite Hn. reflexivity.
Qed.

Lemma testAppInfoFromOptions_overrides_witness :
  testAppInfoFromOptions (fun s => s)
    [("testAppName", VStr "demo-app"); ("testAppLocation", VStr "apps/demo")] =
  Ok {| ti_name := {| tn_dashed := "demo-app"; tn_raw := "demo-app" |};
        ti_location := VStr "apps/demo" |}.
Proof.
  apply (@testAppInfoFromOptions_overrides
           (fun s => s)
           [("testAppName", VStr "demo-app");
            ("testAppLocation", VStr "apps/demo")]
           "demo-app"); [reflexivity|discriminate].
Defined.

(** X16.  What [locals] returns agrees with the derivers: its addonInfo
    and testAppInfo are the records [addonInfoFromOptions] and
    [testAppInfoFromOptions] return on the same options, and addonName
    and addonNamespace are the dasherized and the classified entity
    name. *)
Theorem locals_agree_with_derivers
  (dasherize classify : string -> string) (version : value) (year : Z)
  (options : object value) (l : Locals) :
  locals dasherize classify version year options = Ok l ->
  addonInfoFromOptions dasherize classify options = Ok (l_addonInfo l)
  /\ testAppInfoFromOptions dasherize options = Ok (l_testAppInfo l)
  /\ exists raw,
      member "name" (prop "entity" options) = Ok (VStr raw)
      /\ l_addonName l = dasherize raw
      /\ l_addonNamespace l = classify raw.
Proof.
  intros H. destruct (locals_components _ _ _ _ _ H) as [Ha Ht].
  split; [assumption|]. split; [assumption|].
  assert (Hn : l_addonName l = an_dashed (ai_name (l_addonInfo l))
               /\ l_addonNamespace l = an_classified (ai_name (l_addonInfo l))).
  { unfold locals in H. rewrite Ha, Ht in H. simpl in H.
    destruct (pathFromAddonToRoot _); simpl in H; [|discriminate].
    inversion H; subst; simpl. auto. }
  destruct Hn as [-> ->].
  unfold addonInfoFromOptions in Ha.
  destruct (member "name" (prop "entity" options)) as [n|]; simpl in Ha;
    [|discriminate].
  destruct n; simpl in Ha; try discriminate.
  inversion Ha; subst; simpl. eauto.
Qed.

Lemma locals_agree_with_derivers_witness :
  exists l,
    locals Demo.dasherize Demo.classify VUndefined 2026 Demo.options = Ok l
    /\ addonInfoFromOptions Demo.dasherize Demo.classify Demo.options =
       Ok (l_addonInfo l)
    /\ testAppInfoFromOptions Demo.dasherize Demo.options = Ok (l_testAppInfo l).
Proof.
  eexists.
  destruct (@locals_agree_with_derivers
              Demo.dasherize Demo.classify VUndefined 2026 Demo.options
              _ eq_refl) as (Ha & Ht & _).
  repeat split; assumption.
Defined.

(** ** Failures on the small environment *)

(** When the copy fails the other tasks are started all the same, and the
    removal of the overrides is never called. *)
Example demo_run_copy_fails :
  fst (Demo.run Demo.options Demo.copy_fails) = Err (EnvError "EACCES")
  /\ trace (snd (Demo.run Demo.options Demo.copy_fails)) =
     [ Install (appOptionsFor Demo.options "/tmp/x/test-app" "test-app");
       Require "/tmp/x/test-app/package.json";
       WriteFile "/tmp/x/test-app/package.json" "name,devDependencies,scripts";
       Copy "/tmp/x/test-app-overrides" "test-app" true;
       Unlink "/tmp/x/test-app/.travis.yml" ].
Proof. split; reflexivity. Qed.

(** With two tasks failing, the error of the run is the one the
    environment lets settle first. *)
Example demo_run_two_rejections :
  let w (first : nat) :=
    {| files := unlink_file "/tmp/x/test-app/.travis.yml" Demo.generated;
       trace := [];
       faults := fun c => match c with Copy _ _ _ => Some "EACCES" | _ => None end;
       external := fun _ f => f;
       settles := fun _ => first |} in
  fst (Demo.run Demo.options (w 0)) = Err (EnvError "EACCES")
  /\ fst (Demo.run Demo.options (w 1)) = Err (EnvError "ENOENT").
Proof. split; reflexivity. Qed.
